(** * koa-microservice-typeorm: the MicroserviceORM connection guardian

    A shallow embedding of [MicroserviceORM] (the class exported by the
    package's index module) and the properties of its options resolver,
    lifecycle controller and health cache.

    Conventions of the embedding:
    - a JavaScript [number] holding a port or a duration in milliseconds is
      a [Z]; [NaN] and fractions are not represented;
    - an optional field ([x?: T], [T | null], [T | undefined]) is an
      [option T], [None] standing for [undefined]/[null];
    - [a || b] is written out with the truthiness of the operand's type:
      [0] and the empty string are falsy, objects and arrays are truthy;
    - a [Connection] is an object owned by typeorm and shared by reference:
      the guardian stores a handle and typeorm's world holds the object;
    - an [async] method is a function from states to an outcome and a state;
      a rejected promise is the outcome [Throw]. *)

From Stdlib Require Import ZArith String List Bool Lia.
Import ListNotations.
Local Open Scope Z_scope.
Local Open Scope string_scope.
Local Open Scope list_scope.

(** ** JavaScript truthiness and [||] *)

Module Js.

Definition truthy_num (n : Z) : bool := negb (n =? 0)%Z.

Definition truthy_str (s : string) : bool :=
  match s with EmptyString => false | String _ _ => true end.

(** [a || b] where both operands may be [undefined]. *)
Definition or {A : Type} (truthy : A -> bool) (a b : option A) : option A :=
  match a with
  | Some x => if truthy x then a else b
  | None => b
  end.

(** [a || d] where the right operand is a literal. *)
Definition or_else {A : Type} (truthy : A -> bool) (a : option A) (d : A) : A :=
  match a with
  | Some x => if truthy x then x else d
  | None => d
  end.

(** [o?.f] for an optional field [f]. *)
Definition chain {A B : Type} (o : option A) (f : A -> option B) : option B :=
  match o with Some x => f x | None => None end.

(** [o?.f] for a required field [f]. *)
Definition chain_req {A B : Type} (o : option A) (f : A -> B) : option B :=
  match o with Some x => Some (f x) | None => None end.

(** A value counts as set (to something the code will use) when it is
    present and truthy. *)
Definition is_set {A : Type} (truthy : A -> bool) (a : option A) : bool :=
  match a with Some x => truthy x | None => false end.

End Js.

(** ** Configuration records *)

Inductive DbType := mysql | postgres.

(** [slaves?: string | string[]] *)
Inductive SlavesValue :=
| SlaveString (s : string)
| SlaveArray (l : list string).

Record MicroserviceORMConfig := mkConfig {
  cfg_type : DbType;
  cfg_master : string;
  cfg_slaves : option SlavesValue;
  cfg_port : option Z;
  cfg_database : option string;
  cfg_username : option string;
  cfg_password : option string
}.

(** typeorm's [ConnectionOptions] is declared outside this repository; the
    guardian reads only its optional [name] and hands the rest to
    [createConnection] untouched. *)
Record ConnectionOptions := mkConnectionOptions {
  co_name : option string;
  co_settings : list (string * string)
}.

(** ** Output of the options resolver *)

Record CliDirs := mkCli {
  entitiesDir : string;
  migrationsDir : string;
  subscribersDir : string
}.

(** The [output] object literal of [buildConnectionOptions]. *)
Record OutputBase := mkOutput {
  out_cli : CliDirs;
  out_entities : list string;
  out_subscribers : list string;
  out_migrations : list string;
  out_type : DbType
}.

(** The [details] object literal: the shared connection parameters. *)
Record Details := mkDetails {
  d_port : Z;
  d_username : option string;
  d_password : option string;
  d_database : option string
}.

(** [{host: h, ...details}] *)
Record Endpoint := mkEndpoint {
  ep_host : string;
  ep_details : Details
}.

(** The two shapes [buildConnectionOptions] returns:
    [{host, ...output, ...details}] and
    [{...output, replication: {master, slaves}}]. *)
Inductive MicroserviceORMConnectionOptions :=
| SingleServer (host : string) (output : OutputBase) (details : Details)
| Replication (output : OutputBase) (master : Endpoint) (slaves : list Endpoint).

(** ** The options resolver *)

Module Resolver.

Definition truthy_type (_ : DbType) : bool := true.

Definition truthy_slaves (v : SlavesValue) : bool :=
  match v with
  | SlaveString s => Js.truthy_str s
  | SlaveArray _ => true
  end.

(** [config?.type || this.config?.type || 'mysql'] *)
Definition resolveType (stored config : option MicroserviceORMConfig) : DbType :=
  Js.or_else truthy_type
    (Js.or truthy_type (Js.chain_req config cfg_type) (Js.chain_req stored cfg_type))
    mysql.

Definition resolveOutput (stored config : option MicroserviceORMConfig) : OutputBase :=
  {| out_cli := {| entitiesDir := "./src/entity";
                   migrationsDir := "./src/migration";
                   subscribersDir := "./src/subscriber" |};
     out_entities := ["./build/entity/*.js"; "./build/entity/**/*.js"];
     out_subscribers := ["./build/subscriber/*.js"; "./build/subscriber/**/*.js"];
     out_migrations := ["./build/migration/*.js"];
     out_type := resolveType stored config |}.

Definition resolveDetails (stored config : option MicroserviceORMConfig) : Details :=
  {| d_port :=
       Js.or_else Js.truthy_num
         (Js.or Js.truthy_num (Js.chain config cfg_port) (Js.chain stored cfg_port))
         3306;
     d_username :=
       Js.or Js.truthy_str (Js.chain config cfg_username) (Js.chain stored cfg_username);
     d_password :=
       Js.or Js.truthy_str (Js.chain config cfg_password) (Js.chain stored cfg_password);
     d_database :=
       Js.or Js.truthy_str (Js.chain config cfg_database) (Js.chain stored cfg_database) |}.

(** [config?.master || this.config?.master || '127.0.0.1'] *)
Definition resolveMaster (stored config : option MicroserviceORMConfig) : string :=
  Js.or_else Js.truthy_str
    (Js.or Js.truthy_str (Js.chain_req config cfg_master) (Js.chain_req stored cfg_master))
    "127.0.0.1".

(** [config?.slaves || this.config?.slaves || []] *)
Definition mergeSlaves (stored config : option MicroserviceORMConfig) : SlavesValue :=
  Js.or_else truthy_slaves
    (Js.or truthy_slaves (Js.chain config cfg_slaves) (Js.chain stored cfg_slaves))
    (SlaveArray []).

(** [if (typeof slaves === "string") slaves = [slaves]] *)
Definition normalizeSlaves (v : SlavesValue) : list string :=
  match v with
  | SlaveString s => [s]
  | SlaveArray l => l
  end.

Definition resolveSlaves (stored config : option MicroserviceORMConfig) : list string :=
  normalizeSlaves (mergeSlaves stored config).

(** The [for (slave of slaves) replicationSlaves.push(...)] loop. *)
Definition pushSlaves (details : Details) (slaves : list string) : list Endpoint :=
  fold_left
    (fun replicationSlaves slave =>
       (replicationSlaves ++ [ {| ep_host := slave; ep_details := details |} ])%list)
    slaves [].

(** The body of [buildConnectionOptions(config?)]; [stored] is
    [this.config]. *)
Definition build
    (stored config : option MicroserviceORMConfig) : MicroserviceORMConnectionOptions :=
  let output := resolveOutput stored config in
  let details := resolveDetails stored config in
  let master := resolveMaster stored config in
  let slaves := resolveSlaves stored config in
  if (Z.of_nat (length slaves) =? 0)%Z then
    SingleServer master output details
  else
    Replication output
      {| ep_host := master; ep_details := details |}
      (pushSlaves details slaves).

(** Readers of the resolved value of each field in the returned options
    (for replication options, at the master endpoint). *)
Definition optionsHost (o : MicroserviceORMConnectionOptions) : string :=
  match o with
  | SingleServer h _ _ => h
  | Replication _ m _ => ep_host m
  end.

Definition optionsDetails (o : MicroserviceORMConnectionOptions) : Details :=
  match o with
  | SingleServer _ _ d => d
  | Replication _ m _ => ep_details m
  end.

Definition optionsType (o : MicroserviceORMConnectionOptions) : DbType :=
  match o with
  | SingleServer _ out _ => out_type out
  | Replication out _ _ => out_type out
  end.

Definition optionsSlaves (o : MicroserviceORMConnectionOptions) : list Endpoint :=
  match o with
  | SingleServer _ _ _ => []
  | Replication _ _ s => s
  end.

End Resolver.

(** ** The guardian *)

(** A handle to a typeorm [Connection] object. *)
Definition Connection := nat.

(** The three methods [bindTo] registers with the host. *)
Inductive Hook := HookConnect | HookClose | HookHealthCheck.

(** koa-microservice's [Microservice] is declared outside this repository;
    the guardian registers hooks with it and writes to its log. *)
Record Microservice := mkMicroservice {
  startupHooks : list Hook;
  shutdownHooks : list Hook;
  healthChecks : list Hook
}.

Record MicroserviceORMOptions := mkOptions {
  opt_connectionName : option string;
  opt_connectionOptions : option ConnectionOptions;
  opt_connectionRequired : option bool;
  opt_unhealthyWithoutConnection : option bool;
  opt_connectionAttemptInterval : option Z;
  opt_healthCheckQuery : option string;
  opt_healthCheckInterval : option Z;
  opt_config : option MicroserviceORMConfig
}.

Record MicroserviceORM := mkORM {
  app : option Microservice;
  connection : option Connection;
  config : option MicroserviceORMConfig;
  connectionRequired : bool;
  unhealthyWithoutConnection : bool;
  connectionAttemptInterval : Z;
  healthCheckQuery : string;
  healthCheckInterval : Z;
  _lastConnectionAttempt : option Z;
  _lastHealthCheck : option Z;
  _lastHealthCheckResult : option bool;
  _connectionOptions : option ConnectionOptions;
  _connectionName : option string
}.

(** Field assignments [this.f = v]. *)

Definition set_app (v : option Microservice) (g : MicroserviceORM) : MicroserviceORM :=
    mkORM v (connection g) (config g) (connectionRequired g)
      (unhealthyWithoutConnection g) (connectionAttemptInterval g) (healthCheckQuery g)
      (healthCheckInterval g) (_lastConnectionAttempt g) (_lastHealthCheck g)
      (_lastHealthCheckResult g) (_connectionOptions g) (_connectionName g).

Definition set_connection (v : option Connection) (g : MicroserviceORM) : MicroserviceORM :=
    mkORM (app g) v (config g) (connectionRequired g) (unhealthyWithoutConnection g)
      (connectionAttemptInterval g) (healthCheckQuery g) (healthCheckInterval g)
      (_lastConnectionAttempt g) (_lastHealthCheck g) (_lastHealthCheckResult g)
      (_connectionOptions g) (_connectionName g).

Definition set_config (v : option MicroserviceORMConfig) (g : MicroserviceORM) : MicroserviceORM :=
    mkORM (app g) (connection g) v (connectionRequired g) (unhealthyWithoutConnection g)
      (connectionAttemptInterval g) (healthCheckQuery g) (healthCheckInterval g)
      (_lastConnectionAttempt g) (_lastHealthCheck g) (_lastHealthCheckResult g)
      (_connectionOptions g) (_connectionName g).

Definition set_connectionRequired (v : bool) (g : MicroserviceORM) : MicroserviceORM :=
    mkORM (app g) (connection g) (config g) v (unhealthyWithoutConnection g)
      (connectionAttemptInterval g) (healthCheckQuery g) (healthCheckInterval g)
      (_lastConnectionAttempt g) (_lastHealthCheck g) (_lastHealthCheckResult g)
      (_connectionOptions g) (_connectionName g).

Definition set_unhealthyWithoutConnection (v : bool) (g : MicroserviceORM) : MicroserviceORM :=
    mkORM (app g) (connection g) (config g) (connectionRequired g) v
      (connectionAttemptInterval g) (healthCheckQuery g) (healthCheckInterval g)
      (_lastConnectionAttempt g) (_lastHealthCheck g) (_lastHealthCheckResult g)
      (_connectionOptions g) (_connectionName g).

Definition set_connectionAttemptInterval (v : Z) (g : MicroserviceORM) : MicroserviceORM :=
    mkORM (app g) (connection g) (config g) (connectionRequired g)
      (unhealthyWithoutConnection g) v (healthCheckQuery g) (healthCheckInterval g)
      (_lastConnectionAttempt g) (_lastHealthCheck g) (_lastHealthCheckResult g)
      (_connectionOptions g) (_connectionName g).

Definition set_healthCheckQuery (v : string) (g : MicroserviceORM) : MicroserviceORM :=
    mkORM (app g) (connection g) (config g) (connectionRequired g)
      (unhealthyWithoutConnection g) (connectionAttemptInterval g) v
      (healthCheckInterval g) (_lastConnectionAttempt g) (_lastHealthCheck g)
      (_lastHealthCheckResult g) (_connectionOptions g) (_connectionName g).

Definition set_lastHealthCheck (v : option Z) (g : MicroserviceORM) : MicroserviceORM :=
    mkORM (app g) (connection g) (config g) (connectionRequired g)
      (unhealthyWithoutConnection g) (connectionAttemptInterval g) (healthCheckQuery g)
      (healthCheckInterval g) (_lastConnectionAttempt g) v (_lastHealthCheckResult g)
      (_connectionOptions g) (_connectionName g).

Definition set_lastHealthCheckResult (v : option bool) (g : MicroserviceORM) : MicroserviceORM :=
    mkORM (app g) (connection g) (config g) (connectionRequired g)
      (unhealthyWithoutConnection g) (connectionAttemptInterval g) (healthCheckQuery g)
      (healthCheckInterval g) (_lastConnectionAttempt g) (_lastHealthCheck g) v
      (_connectionOptions g) (_connectionName g).

Definition set_connectionOptions (v : option ConnectionOptions) (g : MicroserviceORM) : MicroserviceORM :=
    mkORM (app g) (connection g) (config g) (connectionRequired g)
      (unhealthyWithoutConnection g) (connectionAttemptInterval g) (healthCheckQuery g)
      (healthCheckInterval g) (_lastConnectionAttempt g) (_lastHealthCheck g)
      (_lastHealthCheckResult g) v (_connectionName g).

Definition set_connectionName (v : option string) (g : MicroserviceORM) : MicroserviceORM :=
    mkORM (app g) (connection g) (config g) (connectionRequired g)
      (unhealthyWithoutConnection g) (connectionAttemptInterval g) (healthCheckQuery g)
      (healthCheckInterval g) (_lastConnectionAttempt g) (_lastHealthCheck g)
      (_lastHealthCheckResult g) (_connectionOptions g) v.

(** The field initialisers of the class body. *)
Definition fieldDefaults : MicroserviceORM :=
  {| app := None;
     connection := None;
     config := None;
     connectionRequired := true;
     unhealthyWithoutConnection := true;
     connectionAttemptInterval := 15000;
     healthCheckQuery := "SELECT 1";
     healthCheckInterval := 15000;
     _lastConnectionAttempt := None;
     _lastHealthCheck := None;
     _lastHealthCheckResult := None;
     _connectionOptions := None;
     _connectionName := None |}.

(** [bindTo(app)]: remembers the host and registers the three hooks. *)
Definition bindTo (a : Microservice) (this : MicroserviceORM) : MicroserviceORM :=
  set_app
    (Some {| startupHooks := startupHooks a ++ [HookConnect];
             shutdownHooks := shutdownHooks a ++ [HookClose];
             healthChecks := healthChecks a ++ [HookHealthCheck] |})
    this.

(** [constructor(app?, opts?)], statement by statement. *)
Definition constructor
    (a : option Microservice) (opts : option MicroserviceORMOptions) : MicroserviceORM :=
  let this := fieldDefaults in
  let this := set_connection None this in
  let this := set_connectionName (Js.chain opts opt_connectionName) this in
  let this :=
    match Js.chain opts opt_connectionOptions with
    | Some o => set_connectionOptions (Some o) this
    | None => this
    end in
  let this :=
    match Js.chain opts opt_connectionRequired with
    | Some b => set_connectionRequired b this
    | None => this
    end in
  let this :=
    match Js.chain opts opt_unhealthyWithoutConnection with
    | Some b => set_unhealthyWithoutConnection b this
    | None => this
    end in
  let this :=
    match Js.chain opts opt_connectionAttemptInterval with
    | Some n => if Js.truthy_num n then set_connectionAttemptInterval n this else this
    | None => this
    end in
  let this :=
    match Js.chain opts opt_healthCheckQuery with
    | Some q => if Js.truthy_str q then set_healthCheckQuery q this else this
    | None => this
    end in
  let this :=
    match Js.chain opts opt_config with
    | Some c => set_config (Some c) this
    | None => this
    end in
  match a with
  | Some host => bindTo host this
  | None => this
  end.

(** [setConnectionOptions(options)] *)
Definition setConnectionOptions
    (options : ConnectionOptions) (this : MicroserviceORM)
  : ConnectionOptions * MicroserviceORM :=
  let this :=
    match co_name options with
    | Some n => if Js.truthy_str n then set_connectionName (Some n) this else this
    | None => this
    end in
  (options, set_connectionOptions (Some options) this).

(** The method [buildConnectionOptions] reads [this.config]. *)
Definition buildConnectionOptions
    (this : MicroserviceORM) (cfg : option MicroserviceORMConfig)
  : MicroserviceORMConnectionOptions :=
  Resolver.build (config this) cfg.

(** ** typeorm and the clock, as seen by the guardian *)

(** The three call shapes of [createConnection]. *)
Inductive CreateArg :=
| ByOptions (o : ConnectionOptions)
| ByName (n : string)
| ByDefault.

(** What a call yields: a value, or a thrown error (a rejected promise)
    of which the guardian reads only [err.message]. *)
Inductive Outcome (A : Type) :=
| Return (a : A)
| Throw (message : string).
Arguments Return {A} a.
Arguments Throw {A} message.

(** typeorm over a world [W] it owns: the connection objects with their
    [isConnected] flags, the connection registry, the database behind them;
    and the wall clock read by [new Date()]. *)
Record Typeorm (W : Type) := mkTypeorm {
  createConnection : CreateArg -> W -> Outcome Connection * W;
  connectionConnect : Connection -> W -> Outcome unit * W;
  connectionClose : Connection -> W -> Outcome unit * W;
  (** [connection.query(q)], observed through [check.length] *)
  connectionQuery : Connection -> string -> W -> Outcome nat * W;
  isConnected : W -> Connection -> bool;
  (** the module-level [getConnection(name?)] *)
  lookupConnection : option string -> W -> Outcome Connection;
  (** the module-level [getConnectionOptions(name?)] *)
  readConnectionOptions : option string -> W -> Outcome ConnectionOptions * W;
  getTime : W -> Z
}.
Arguments createConnection {W}.
Arguments connectionConnect {W}.
Arguments connectionClose {W}.
Arguments connectionQuery {W}.
Arguments isConnected {W}.
Arguments lookupConnection {W}.
Arguments readConnectionOptions {W}.
Arguments getTime {W}.

(** What the guardian does to the outside, in order of occurrence. *)
Inductive Event :=
| CallCreateConnection (arg : CreateArg)
| CallConnect (c : Connection)
| CallClose (c : Connection)
| CallQuery (c : Connection) (q : string)
| CallLookupConnection (name : option string)
| CallReadConnectionOptions (name : option string)
| LogInfo (tag msg : string)
| LogError (tag msg detail : string).

Definition isEstablishment (e : Event) : bool :=
  match e with CallCreateConnection _ => true | _ => false end.

Definition isQuery (e : Event) : bool :=
  match e with CallQuery _ _ => true | _ => false end.

(** Number of [createConnection] calls, of queries, in a trace. *)
Definition establishments (t : list Event) : nat := length (filter isEstablishment t).
Definition queries (t : list Event) : nat := length (filter isQuery t).

(** The guardian, typeorm's world, and the trace so far. *)
Record St (W : Type) := mkSt {
  guardian : MicroserviceORM;
  world : W;
  trace : list Event
}.
Arguments mkSt {W}.
Arguments guardian {W}.
Arguments world {W}.
Arguments trace {W}.

(** ** Asynchronous methods as state transformers

    A thrown error keeps every assignment made before it, so the state is
    threaded through both outcomes.  A method runs from its call to its
    return as one transformer: the calls of a guardian are taken one after
    another, as a host that awaits each hook does; two calls overlapping
    at an [await] are outside this development. *)

Module Async.
Section Monad.
Context {W : Type}.

Definition M (A : Type) : Type := St W -> Outcome A * St W.

Definition ret {A} (a : A) : M A := fun st => (Return a, st).

Definition throw {A} (message : string) : M A := fun st => (Throw message, st).

Definition bind {A B} (c : M A) (k : A -> M B) : M B := fun st =>
  match c st with
  | (Return a, st') => k a st'
  | (Throw e, st') => (Throw e, st')
  end.

(** [try { c } catch (err) { handler(err.message) }] *)
Definition try_catch {A} (c : M A) (handler : string -> M A) : M A := fun st =>
  match c st with
  | (Return a, st') => (Return a, st')
  | (Throw e, st') => handler e st'
  end.

(** Read [this]. *)
Definition this : M MicroserviceORM := fun st => (Return (guardian st), st).

(** Read typeorm's world (an [isConnected] flag, the clock). *)
Definition observe : M W := fun st => (Return (world st), st).

(** [this.f = v] *)
Definition assign (f : MicroserviceORM -> MicroserviceORM) : M unit := fun st =>
  (Return tt, mkSt (f (guardian st)) (world st) (trace st)).

Definition emit (e : Event) : M unit := fun st =>
  (Return tt, mkSt (guardian st) (world st) (trace st ++ [e])).

(** A call into typeorm: recorded, then answered by the world. *)
Definition extern {A} (e : Event) (call : W -> Outcome A * W) : M A := fun st =>
  let (r, w') := call (world st) in
  (r, mkSt (guardian st) w' (trace st ++ [e])).

End Monad.
Arguments M : clear implicits.
End Async.

Declare Scope async_scope.
Delimit Scope async_scope with async.
Notation "x <- c1 ;; c2" := (Async.bind c1 (fun x => c2))
  (at level 61, c1 at next level, right associativity) : async_scope.
Notation "c1 ;; c2" := (Async.bind c1 (fun _ => c2))
  (at level 61, right associativity) : async_scope.

(** ** The lifecycle controller and the health cache *)

Section Guardian.
Context {W : Type} (orm : Typeorm W).
Import Async.
Local Open Scope async_scope.

(** [this.connection?.isConnected], as a condition. *)
Definition live (g : MicroserviceORM) (w : W) : bool :=
  match connection g with
  | Some c => isConnected orm w c
  | None => false
  end.

(** [this.app?.info(tag, msg)] *)
Definition app_info (tag msg : string) : M W unit :=
  g <- this ;;
  match app g with
  | Some _ => emit (LogInfo tag msg)
  | None => ret tt
  end.

(** [this.app?.error(tag, msg, detail)] *)
Definition app_error (tag msg detail : string) : M W unit :=
  g <- this ;;
  match app g with
  | Some _ => emit (LogError tag msg detail)
  | None => ret tt
  end.

(** [this.connection = await createConnection(arg)] *)
Definition establish (arg : CreateArg) : M W unit :=
  c <- extern (CallCreateConnection arg) (createConnection orm arg) ;;
  assign (set_connection (Some c)).

(** The [try] block of [connect], first part: the three guarded
    [createConnection] calls. *)
Definition connect_establish : M W unit :=
  g <- this ;;
  match connection g, _connectionOptions g with
  | None, Some o => establish (ByOptions o)
  | _, _ => ret tt
  end ;;
  g <- this ;;
  match connection g, _connectionName g with
  | None, Some n => if Js.truthy_str n then establish (ByName n) else ret tt
  | _, _ => ret tt
  end ;;
  g <- this ;;
  match connection g with
  | None => establish ByDefault
  | Some _ => ret tt
  end.

(** Second part: activation of the handle and the returned value. *)
Definition connect_activate : M W bool :=
  g <- this ;;
  match connection g with
  | None => throw "TypeError: Cannot read property 'isConnected' of null"
  | Some c =>
      w <- observe ;;
      (if negb (isConnected orm w c)
       then extern (CallConnect c) (connectionConnect orm c)
       else ret tt) ;;
      g <- this ;;
      w <- observe ;;
      (if live g w then app_info "ORM:" "Connecting" else ret tt) ;;
      g <- this ;;
      w <- observe ;;
      ret (if connectionRequired g then live g w else true)
  end.

(** The [try] block of [connect]. *)
Definition connect_try : M W bool :=
  app_info "ORM:" "Attempting Connection" ;;
  connect_establish ;;
  connect_activate.

(** The [catch (err)] block of [connect]. *)
Definition connect_catch (message : string) : M W bool :=
  app_error "ORM:" "Error" message ;;
  g <- this ;;
  ret (if connectionRequired g then false else true).

(** [connect()] *)
Definition connect : M W bool :=
  g <- this ;;
  w <- observe ;;
  if live g w then ret true
  else try_catch connect_try connect_catch.

(** [close()] *)
Definition close : M W bool :=
  g <- this ;;
  match connection g with
  | None => ret true
  | Some c =>
      w <- observe ;;
      if negb (isConnected orm w c) then ret true
      else
        extern (CallClose c) (connectionClose orm c) ;;
        g <- this ;;
        w <- observe ;;
        match connection g with
        | Some c' => ret (if isConnected orm w c' then false else true)
        | None => throw "TypeError: Cannot read property 'isConnected' of null"
        end
  end.

(** The guard of [healthCheck] that serves the cache:
    [if (this._lastHealthCheck && this._lastHealthCheckResult)
       if (this._lastHealthCheck.getTime() >= now - this.healthCheckInterval)
         return this._lastHealthCheckResult]. *)
Definition cachedResult (g : MicroserviceORM) (now : Z) : option bool :=
  match _lastHealthCheck g, _lastHealthCheckResult g with
  | Some last, Some r =>
      if r then
        if (last >=? now - healthCheckInterval g)%Z then Some r else None
      else None
  | _, _ => None
  end.

(** The part of [healthCheck] after [await this.connect()]: the guard
    on the connection, then the check query.  The [catch] block cannot
    throw, so the [finally] block is the continuation of the
    [try]/[catch] on both paths. *)
Definition healthCheck_probe : M W bool :=
  g <- this ;;
  w <- observe ;;
  match connection g with
  | None => ret false
  | Some c =>
      if negb (isConnected orm w c) then ret false
      else
        result <-
          try_catch
            (check <- extern (CallQuery c (healthCheckQuery g))
                        (connectionQuery orm c (healthCheckQuery g)) ;;
             ret (0 <? check)%nat)
            (fun _ => ret false) ;;
        w <- observe ;;
        assign (set_lastHealthCheck (Some (getTime orm w))) ;;
        assign (set_lastHealthCheckResult (Some result)) ;;
        ret result
  end.

(** [healthCheck()] *)
Definition healthCheck : M W bool :=
  g <- this ;;
  if negb (unhealthyWithoutConnection g) then ret true
  else
    w <- observe ;;
    match cachedResult g (getTime orm w) with
    | Some r => ret r
    | None =>
        connect ;;
        healthCheck_probe
    end.

(** [getConnection()] *)
Definition getConnection : M W Connection :=
  g <- this ;;
  w <- observe ;;
  (if negb (live g w) then connect ;; ret tt else ret tt) ;;
  g <- this ;;
  w <- observe ;;
  match connection g with
  | Some c =>
      if isConnected orm w c then ret c
      else
        let name := if Js.is_set Js.truthy_str (_connectionName g)
                    then _connectionName g else None in
        extern (CallLookupConnection name) (fun w => (lookupConnection orm name w, w))
  | None =>
      let name := if Js.is_set Js.truthy_str (_connectionName g)
                  then _connectionName g else None in
      extern (CallLookupConnection name) (fun w => (lookupConnection orm name w, w))
  end.

(** The private [getConnectionOptions()] *)
Definition getConnectionOptions : M W ConnectionOptions :=
  g <- this ;;
  match _connectionOptions g with
  | Some options => ret options
  | None =>
      loaded <- extern (CallReadConnectionOptions (_connectionName g))
                  (readConnectionOptions orm (_connectionName g)) ;;
      g <- this ;;
      assign (fun _ => snd (setConnectionOptions loaded g)) ;;
      ret loaded
  end.

(** The operations a host can invoke on a bound guardian. *)
Inductive Op := OpConnect | OpClose | OpHealthCheck | OpGetConnection.

(** The state an operation leaves, whether it returned or threw. *)
Definition exec (op : Op) (st : St W) : St W :=
  match op with
  | OpConnect => snd (connect st)
  | OpClose => snd (close st)
  | OpHealthCheck => snd (healthCheck st)
  | OpGetConnection => snd (getConnection st)
  end.

(** The private fields of the guardian, which no code outside the class
    can assign. *)
Definition samePrivate (g g' : MicroserviceORM) : Prop :=
  _lastConnectionAttempt g' = _lastConnectionAttempt g /\
  _lastHealthCheck g' = _lastHealthCheck g /\
  _lastHealthCheckResult g' = _lastHealthCheckResult g /\
  _connectionOptions g' = _connectionOptions g /\
  _connectionName g' = _connectionName g.

(** States a guardian can be in: constructed, then any interleaving of
    its operations, of changes in typeorm's world (time passing,
    connections dropping) and of assignments to its public fields. *)
Inductive reachable : St W -> Prop :=
| reach_new a opts w :
    reachable (mkSt (constructor a opts) w [])
| reach_op op st :
    reachable st -> reachable (exec op st)
| reach_world st w' :
    reachable st -> reachable (mkSt (guardian st) w' (trace st))
| reach_public st g' :
    reachable st -> samePrivate (guardian st) g' ->
    reachable (mkSt g' (world st) (trace st))
| reach_setOptions st o :
    reachable st ->
    reachable (mkSt (snd (setConnectionOptions o (guardian st))) (world st) (trace st)).

(** The health cache entry: timestamp and result. *)
Definition cacheEntry (g : MicroserviceORM) : option Z * option bool :=
  (_lastHealthCheck g, _lastHealthCheckResult g).

Definition cachePaired (g : MicroserviceORM) : Prop :=
  _lastHealthCheck g = None <-> _lastHealthCheckResult g = None.

End Guardian.

(** ** A small database world to run the guardian against

    One database that is reachable or not; every connection object typeorm
    has handed out, with its [isConnected] flag; the clock; the number of
    rows the health query yields. *)

Module Sim.

Record World := mkWorld {
  up : bool;
  flags : list bool;
  clock : Z;
  rows : nat
}.

Fixpoint setFlag (c : nat) (b : bool) (l : list bool) : list bool :=
  match l, c with
  | [], _ => []
  | _ :: tl, O => b :: tl
  | hd :: tl, S c' => hd :: setFlag c' b tl
  end.

Definition refused : string := "connect ECONNREFUSED".

Definition typeorm : Typeorm World :=
  {| createConnection := fun _ w =>
       if up w
       then (Return (length (flags w)),
             mkWorld (up w) (flags w ++ [true]) (clock w) (rows w))
       else (Throw refused, w);
     connectionConnect := fun c w =>
       if up w
       then (Return tt, mkWorld (up w) (setFlag c true (flags w)) (clock w) (rows w))
       else (Throw refused, w);
     connectionClose := fun c w =>
       (Return tt, mkWorld (up w) (setFlag c false (flags w)) (clock w) (rows w));
     connectionQuery := fun c _ w =>
       if up w && nth c (flags w) false
       then (Return (rows w), w)
       else (Throw "Connection lost: The server closed the connection.", w);
     isConnected := fun w c => nth c (flags w) false;
     lookupConnection := fun name w =>
       match name, flags w with
       | None, _ :: _ => Return O
       | _, _ => Throw "ConnectionNotFoundError"
       end;
     readConnectionOptions := fun _ w => (Throw "No connection options were found", w);
     getTime := clock |}.

(** A guardian as [new MicroserviceORM()] leaves it, facing a world. *)
Definition fresh (w : World) : St World := mkSt (constructor None None) w [].

(** The environment between two calls: the same guardian and trace in
    another world. *)
Definition later (w : World) (st : St World) : St World :=
  mkSt (guardian st) w (trace st).

(** Worlds at the instant 1000: the database up with a health query
    that yields no row, up with one row, and down. *)
Definition upEmpty : World := mkWorld true [] 1000 0.
Definition upOneRow (handles : list bool) : World := mkWorld true handles 1000 1.
Definition down : World := mkWorld false [] 1000 1.

(** The database gone down under an established connection, which
    typeorm still reports as connected. *)
Definition downAfterConnect : World := mkWorld false [true] 1000 1.


(** A stored default and a per-call configuration with falsy fields. *)
Definition storedConfig : MicroserviceORMConfig :=
  {| cfg_type := postgres;
     cfg_master := "primary.internal";
     cfg_slaves := None;
     cfg_port := Some 5432;
     cfg_database := Some "app";
     cfg_username := Some "svc";
     cfg_password := Some "secret" |}.

Definition blankConfig : MicroserviceORMConfig :=
  {| cfg_type := postgres;
     cfg_master := "primary.internal";
     cfg_slaves := None;
     cfg_port := Some 0;
     cfg_database := None;
     cfg_username := None;
     cfg_password := Some EmptyString |}.

(** Options that try to switch everything off or to zero. *)
Definition zeroedOptions : MicroserviceORMOptions :=
  {| opt_connectionName := None;
     opt_connectionOptions := None;
     opt_connectionRequired := Some false;
     opt_unhealthyWithoutConnection := Some false;
     opt_connectionAttemptInterval := Some 0;
     opt_healthCheckQuery := Some EmptyString;
     opt_healthCheckInterval := Some 60000;
     opt_config := None |}.

End Sim.

(** ** Specification vocabulary *)

(** Three-layer precedence for a field whose fallback is a literal: the
    per-call value when usable, else the stored value when usable, else
    the fallback. *)
Definition layered {A : Type} (truthy : A -> bool)
    (perCall stored : option A) (fallback result : A) : Prop :=
  (forall v, perCall = Some v -> truthy v = true -> result = v) /\
  (forall v, Js.is_set truthy perCall = false ->
             stored = Some v -> truthy v = true -> result = v) /\
  (Js.is_set truthy perCall = false -> Js.is_set truthy stored = false ->
   result = fallback).

(** The same for a field without fallback, which stays unset. *)
Definition layeredOptional {A : Type} (truthy : A -> bool)
    (perCall stored result : option A) : Prop :=
  (forall v, perCall = Some v -> truthy v = true -> result = Some v) /\
  (forall v, Js.is_set truthy perCall = false ->
             stored = Some v -> truthy v = true -> result = Some v) /\
  (Js.is_set truthy perCall = false -> Js.is_set truthy stored = false ->
   Js.is_set truthy result = false).

(** A state after [this.app?.info(...)] or [this.app?.error(...)]: the
    line is in the trace when the guardian is bound to a host. *)
Definition logged {W : Type} (e : Event) (st : St W) : St W :=
  match app (guardian st) with
  | Some _ => mkSt (guardian st) (world st) (trace st ++ [e])
  | None => st
  end.

(** Two guardians that differ at most in their [connection] field. *)
Definition onlyConnection (g g' : MicroserviceORM) : Prop :=
  g' = set_connection (connection g') g.

(** The [createConnection] call a disconnected guardian makes: explicit
    options first, then the connection name, then typeorm's default. *)
Definition establishmentArg (g : MicroserviceORM) : CreateArg :=
  match _connectionOptions g with
  | Some o => ByOptions o
  | None =>
      match _connectionName g with
      | Some n => if Js.truthy_str n then ByName n else ByDefault
      | None => ByDefault
      end
  end.

(** Two guardians that differ at most in their [connection] field and in
    the two health-cache fields. *)
Definition onlyConnectionAndCache (g g' : MicroserviceORM) : Prop :=
  g' = set_lastHealthCheckResult (_lastHealthCheckResult g')
         (set_lastHealthCheck (_lastHealthCheck g')
            (set_connection (connection g') g)).

(** The argument of the registry lookup at the end of [getConnection]:
    [this._connectionName ? getConnection(this._connectionName)
                          : getConnection()]. *)
Definition registryName (g : MicroserviceORM) : option string :=
  if Js.is_set Js.truthy_str (_connectionName g) then _connectionName g else None.

(** Number of [connection.connect()] and of [connection.close()] calls in
    a trace. *)
Definition activations (t : list Event) : nat :=
  length (filter (fun e => match e with CallConnect _ => true | _ => false end) t).

Definition closings (t : list Event) : nat :=
  length (filter (fun e => match e with CallClose _ => true | _ => false end) t).

(** ** Variants of the database world *)

Module Faulty.

(** typeorm whose [connection.close()] fails and leaves the connection as
    it was. *)
Definition stuckClose : Typeorm Sim.World :=
  {| createConnection := createConnection Sim.typeorm;
     connectionConnect := connectionConnect Sim.typeorm;
     connectionClose := fun _ w => (Throw "Quit inactivity timeout", w);
     connectionQuery := connectionQuery Sim.typeorm;
     isConnected := isConnected Sim.typeorm;
     lookupConnection := lookupConnection Sim.typeorm;
     readConnectionOptions := readConnectionOptions Sim.typeorm;
     getTime := getTime Sim.typeorm |}.

(** Connection options as an ormconfig file would provide them. *)
Definition replicaOptions : ConnectionOptions :=
  {| co_name := Some "replica"; co_settings := [("type", "mysql")] |}.

Definition unnamedOptions : ConnectionOptions :=
  {| co_name := None; co_settings := [("type", "postgres")] |}.

(** typeorm that finds [replicaOptions] whatever the name asked for. *)
Definition withOptionsFile : Typeorm Sim.World :=
  {| createConnection := createConnection Sim.typeorm;
     connectionConnect := connectionConnect Sim.typeorm;
     connectionClose := connectionClose Sim.typeorm;
     connectionQuery := connectionQuery Sim.typeorm;
     isConnected := isConnected Sim.typeorm;
     lookupConnection := lookupConnection Sim.typeorm;
     readConnectionOptions := fun _ w => (Return replicaOptions, w);
     getTime := getTime Sim.typeorm |}.

(** A guardian that holds handle 0, closed, facing a reachable database. *)
Definition closedHandle : St Sim.World :=
  mkSt (set_connection (Some 0%nat) (constructor None None))
    (Sim.mkWorld true [false] 1000 1) [].

(** A guardian with a fresh positive cache entry taken at instant 1000,
    facing an unreachable database at instant [now]. *)
Definition cachedHealthy (now : Z) : St Sim.World :=
  mkSt (set_lastHealthCheckResult (Some true)
          (set_lastHealthCheck (Some 1000) (constructor None None)))
    (Sim.mkWorld false [] now 1) [].

(** Options that make the connection optional and keep health gating. *)
Definition optionalConnection : MicroserviceORMOptions :=
  {| opt_connectionName := None;
     opt_connectionOptions := None;
     opt_connectionRequired := Some false;
     opt_unhealthyWithoutConnection := None;
     opt_connectionAttemptInterval := None;
     opt_healthCheckQuery := None;
     opt_healthCheckInterval := None;
     opt_config := None |}.

(** Constructor options that only name the connection. *)
Definition namedOptions : MicroserviceORMOptions :=
  {| opt_connectionName := Some "reporting";
     opt_connectionOptions := None;
     opt_connectionRequired := None;
     opt_unhealthyWithoutConnection := None;
     opt_connectionAttemptInterval := None;
     opt_healthCheckQuery := None;
     opt_healthCheckInterval := None;
     opt_config := None |}.

(** A stored configuration with two replicas. *)
Definition replicatedConfig : MicroserviceORMConfig :=
  {| cfg_type := mysql;
     cfg_master := "db1";
     cfg_slaves := Some (SlaveArray ["db2"; "db3"]);
     cfg_port := None;
     cfg_database := None;
     cfg_username := None;
     cfg_password := None |}.


(** A per-call configuration that names no replica, with an empty array. *)
Definition noReplicaConfig : MicroserviceORMConfig :=
  {| cfg_type := mysql;
     cfg_master := "db1";
     cfg_slaves := Some (SlaveArray []);
     cfg_port := None;
     cfg_database := None;
     cfg_username := None;
     cfg_password := None |}.

End Faulty.

(** * Properties *)

(** ** The options resolver *)

Section ResolverFacts.
Import Resolver.

Lemma or_else_or_layered {A : Type} (truthy : A -> bool) (a b : option A) (d : A) :
  layered truthy a b d (Js.or_else truthy (Js.or truthy a b) d).
Proof.
  unfold layered, Js.or_else, Js.or, Js.is_set.
  repeat split.
  - intros v -> Hv. now rewrite Hv, Hv.
  - intros v Ha -> Hv.
    destruct a as [x|]; [rewrite Ha|]; now rewrite Hv.
  - intros Ha Hb.
    destruct a as [x|]; [rewrite Ha|]; destruct b as [y|]; try rewrite Hb; reflexivity.
Qed.

Lemma or_layeredOptional {A : Type} (truthy : A -> bool) (a b : option A) :
  layeredOptional truthy a b (Js.or truthy a b).
Proof.
  unfold layeredOptional, Js.or, Js.is_set.
  repeat split.
  - intros v -> Hv. now rewrite Hv.
  - intros v Ha ->. destruct a as [x|]; [rewrite Ha|]; reflexivity.
  - intros Ha Hb. destruct a as [x|]; [rewrite Ha|]; exact Hb.
Qed.

(** The loop appends one endpoint per replica, after what is there. *)
Lemma pushSlaves_from (details : Details) (slaves : list string) (acc : list Endpoint) :
  fold_left
    (fun replicationSlaves slave =>
       (replicationSlaves ++ [ {| ep_host := slave; ep_details := details |} ])%list)
    slaves acc
  = (acc ++ map (fun h => {| ep_host := h; ep_details := details |}) slaves)%list.
Proof.
  revert acc.
  induction slaves as [|h tl IH]; intros acc; simpl.
  - now rewrite app_nil_r.
  - rewrite IH, <- app_assoc. reflexivity.
Qed.

Lemma pushSlaves_hosts (details : Details) (slaves : list string) :
  map ep_host (pushSlaves details slaves) = slaves.
Proof.
  unfold pushSlaves. rewrite pushSlaves_from. simpl.
  rewrite map_map. simpl. apply map_id.
Qed.



Lemma build_single (stored cfg : option MicroserviceORMConfig) :
  resolveSlaves stored cfg = [] ->
  Resolver.build stored cfg
  = SingleServer (resolveMaster stored cfg) (resolveOutput stored cfg)
      (resolveDetails stored cfg).
Proof.
  intros H. unfold Resolver.build. now rewrite H.
Qed.

Lemma build_replication (stored cfg : option MicroserviceORMConfig) :
  resolveSlaves stored cfg <> [] ->
  Resolver.build stored cfg
  = Replication (resolveOutput stored cfg)
      {| ep_host := resolveMaster stored cfg; ep_details := resolveDetails stored cfg |}
      (pushSlaves (resolveDetails stored cfg) (resolveSlaves stored cfg)).
Proof.
  intros H. unfold Resolver.build.
  destruct (resolveSlaves stored cfg) as [|h tl]; [congruence|].
  reflexivity.
Qed.

Lemma build_hosts (stored cfg : option MicroserviceORMConfig) :
  map ep_host (optionsSlaves (Resolver.build stored cfg))
  = resolveSlaves stored cfg.
Proof.
  destruct (resolveSlaves stored cfg) as [|h tl] eqn:E.
  - rewrite build_single by assumption. reflexivity.
  - rewrite build_replication by congruence. simpl.
    rewrite E. apply pushSlaves_hosts.
Qed.

Lemma build_host (stored cfg : option MicroserviceORMConfig) :
  optionsHost (Resolver.build stored cfg) = resolveMaster stored cfg.
Proof.
  unfold Resolver.build.
  destruct (Z.of_nat _ =? 0)%Z; reflexivity.
Qed.

Lemma build_details (stored cfg : option MicroserviceORMConfig) :
  optionsDetails (Resolver.build stored cfg) = resolveDetails stored cfg.
Proof.
  unfold Resolver.build.
  destruct (Z.of_nat _ =? 0)%Z; reflexivity.
Qed.

Lemma build_type (stored cfg : option MicroserviceORMConfig) :
  optionsType (Resolver.build stored cfg) = resolveType stored cfg.
Proof.
  unfold Resolver.build.
  destruct (Z.of_nat _ =? 0)%Z; reflexivity.
Qed.



(** C5, as stated, fails: a per-call field that is present but falsy (an
    empty password, port 0) does not override the stored default. *)
Lemma falsy_per_call_value_is_overridden :
  let this := set_config (Some Sim.storedConfig) fieldDefaults in
  let o := buildConnectionOptions this (Some Sim.blankConfig) in
  cfg_password Sim.blankConfig = Some EmptyString /\
  d_password (optionsDetails o) = Some "secret" /\
  d_password (optionsDetails o) <> cfg_password Sim.blankConfig /\
  cfg_port Sim.blankConfig = Some 0 /\
  d_port (optionsDetails o) = 5432.
Proof.
  cbv zeta. repeat split; try reflexivity. discriminate.
Qed.

(** C5 (amended). For every field of the configuration a truthy value
    (a non-zero port, a non-empty string, any array of slaves) in the
    per-call config overrides the stored default config, which, when
    truthy, overrides the hard-coded fallback (port 3306, host
    127.0.0.1, type mysql, no slaves); a per-call value that is absent
    or falsy counts as not set, and the fallback applies only when
    neither layer holds a truthy value.  Username, password and
    database have no fallback and stay unset. *)
Theorem buildConnectionOptions_precedence
    (this : MicroserviceORM) (cfg : option MicroserviceORMConfig) :
  let stored := config this in
  let o := buildConnectionOptions this cfg in
  layered truthy_type (Js.chain_req cfg cfg_type) (Js.chain_req stored cfg_type)
    mysql (optionsType o) /\
  layered Js.truthy_str (Js.chain_req cfg cfg_master) (Js.chain_req stored cfg_master)
    "127.0.0.1" (optionsHost o) /\
  layered Js.truthy_num (Js.chain cfg cfg_port) (Js.chain stored cfg_port)
    3306 (d_port (optionsDetails o)) /\
  layeredOptional Js.truthy_str (Js.chain cfg cfg_username) (Js.chain stored cfg_username)
    (d_username (optionsDetails o)) /\
  layeredOptional Js.truthy_str (Js.chain cfg cfg_password) (Js.chain stored cfg_password)
    (d_password (optionsDetails o)) /\
  layeredOptional Js.truthy_str (Js.chain cfg cfg_database) (Js.chain stored cfg_database)
    (d_database (optionsDetails o)) /\
  (exists merged,
     layered truthy_slaves (Js.chain cfg cfg_slaves) (Js.chain stored cfg_slaves)
       (SlaveArray []) merged /\
     map ep_host (optionsSlaves o) = normalizeSlaves merged).
Proof.
  intros stored o. unfold o, buildConnectionOptions. fold stored.
  rewrite build_type, build_host, build_details, build_hosts.
  unfold resolveType, resolveMaster, resolveDetails, resolveSlaves, mergeSlaves.
  cbn [d_port d_username d_password d_database].
  repeat split;
    try apply or_else_or_layered; try apply or_layeredOptional.
  eexists. split; [apply or_else_or_layered | reflexivity].
Qed.

Lemma buildConnectionOptions_precedence_witness :
  (Js.is_set Js.truthy_num (cfg_port Sim.blankConfig) = false /\
   cfg_port Sim.storedConfig = Some 5432 /\ Js.truthy_num 5432 = true) /\
  d_port (optionsDetails
            (buildConnectionOptions (set_config (Some Sim.storedConfig) fieldDefaults)
               (Some Sim.blankConfig))) = 5432.
Proof.
  split.
  - repeat split.
  - pose proof (buildConnectionOptions_precedence
                  (set_config (Some Sim.storedConfig) fieldDefaults)
                  (Some Sim.blankConfig)) as H.
    cbv zeta in H.
    destruct H as (_ & _ & (_ & Hstored & _) & _).
    apply Hstored; reflexivity.
Defined.

End ResolverFacts.

(** ** Construction *)

Section ConstructorFacts.

Ltac adopt opts :=
  unfold constructor;
  destruct opts as [[name co req unh att q hci cf]|]; simpl in *;
  repeat match goal with
         | H : _ = _ |- _ => progress (subst; simpl)
         | |- context [match ?x with _ => _ end] => destruct x; simpl
         end;
  try reflexivity; try congruence.

Lemma constructor_healthCheckInterval a opts :
  healthCheckInterval (constructor a opts) = 15000.
Proof. adopt opts. Qed.

Lemma constructor_connectionAttemptInterval a opts :
  connectionAttemptInterval (constructor a opts)
  = Js.or_else Js.truthy_num (Js.chain opts opt_connectionAttemptInterval) 15000.
Proof. adopt opts. Qed.

Lemma constructor_healthCheckQuery a opts :
  healthCheckQuery (constructor a opts)
  = Js.or_else Js.truthy_str (Js.chain opts opt_healthCheckQuery) "SELECT 1".
Proof. adopt opts. Qed.

Lemma constructor_connectionRequired a opts :
  connectionRequired (constructor a opts)
  = match Js.chain opts opt_connectionRequired with Some b => b | None => true end.
Proof. adopt opts. Qed.

Lemma constructor_unhealthyWithoutConnection a opts :
  unhealthyWithoutConnection (constructor a opts)
  = match Js.chain opts opt_unhealthyWithoutConnection with Some b => b | None => true end.
Proof. adopt opts. Qed.

(** C10. The constructor never reads the option healthCheckInterval, so
    the guardian's healthCheckInterval is 15000 whatever options are
    supplied; connectionAttemptInterval and healthCheckQuery are adopted
    only when truthy, so 0 and the empty string leave the defaults 15000
    and SELECT 1 in place; an explicit false for connectionRequired or
    unhealthyWithoutConnection is honored. *)
Theorem constructor_adopts_options
    (a : option Microservice) (opts : option MicroserviceORMOptions) :
  let g := constructor a opts in
  healthCheckInterval g = 15000 /\
  (Js.chain opts opt_connectionAttemptInterval = Some 0 ->
   connectionAttemptInterval g = 15000) /\
  (forall n, Js.chain opts opt_connectionAttemptInterval = Some n -> n <> 0 ->
   connectionAttemptInterval g = n) /\
  (Js.chain opts opt_healthCheckQuery = Some EmptyString ->
   healthCheckQuery g = "SELECT 1") /\
  (forall q, Js.chain opts opt_healthCheckQuery = Some q -> q <> EmptyString ->
   healthCheckQuery g = q) /\
  (Js.chain opts opt_connectionRequired = Some false ->
   connectionRequired g = false) /\
  (Js.chain opts opt_unhealthyWithoutConnection = Some false ->
   unhealthyWithoutConnection g = false).
Proof.
  intros g. unfold g.
  rewrite constructor_healthCheckInterval, constructor_connectionAttemptInterval,
    constructor_healthCheckQuery, constructor_connectionRequired,
    constructor_unhealthyWithoutConnection.
  repeat split.
  - intros ->. reflexivity.
  - intros n -> Hn. simpl. unfold Js.truthy_num.
    destruct (Z.eqb_spec n 0); [contradiction | reflexivity].
  - intros ->. reflexivity.
  - intros q -> Hq. simpl. destruct q; [contradiction | reflexivity].
  - intros ->. reflexivity.
  - intros ->. reflexivity.
Qed.

Lemma constructor_adopts_options_witness :
  (opt_connectionAttemptInterval Sim.zeroedOptions = Some 0 /\
   opt_healthCheckQuery Sim.zeroedOptions = Some EmptyString /\
   opt_connectionRequired Sim.zeroedOptions = Some false /\
   opt_unhealthyWithoutConnection Sim.zeroedOptions = Some false) /\
  let g := constructor None (Some Sim.zeroedOptions) in
  healthCheckInterval g = 15000 /\
  connectionAttemptInterval g = 15000 /\
  healthCheckQuery g = "SELECT 1" /\
  connectionRequired g = false /\
  unhealthyWithoutConnection g = false.
Proof.
  split.
  - repeat split.
  - pose proof (constructor_adopts_options None (Some Sim.zeroedOptions)) as H.
    cbv zeta in H.
    destruct H as (Hi & Ha & _ & Hq & _ & Hr & Hu).
    cbv zeta.
    split; [exact Hi|].
    split; [apply Ha; reflexivity|].
    split; [apply Hq; reflexivity|].
    split; [apply Hr; reflexivity | apply Hu; reflexivity].
Defined.

End ConstructorFacts.

(** ** Proof steps shared by the lifecycle and health-cache sections *)

Ltac unfold_ops :=
  cbv [connect connect_try connect_establish connect_activate connect_catch
       close healthCheck healthCheck_probe getConnection
       establish app_info app_error live cachedResult logged
       Async.bind Async.ret Async.throw Async.try_catch Async.this Async.observe
       Async.assign Async.emit Async.extern] in *.

Ltac case_inner :=
  match goal with
  | |- context [match ?x with _ => _ end] =>
      lazymatch x with
      | context [match _ with _ => _ end] => fail
      | _ => let E := fresh "E" in destruct x eqn:E
      end
  end.

Ltac cases := repeat (cbn in *; subst; try congruence; try case_inner).

(** ** The lifecycle controller *)

Section LifecycleFacts.
Context {W : Type} (orm : Typeorm W).
Import Async.

Lemma app_info_run tag msg (st : St W) :
  app_info tag msg st = (Return tt, logged (LogInfo tag msg) st).
Proof. unfold_ops. cases. Qed.

Lemma app_error_run tag msg detail (st : St W) :
  app_error tag msg detail st = (Return tt, logged (LogError tag msg detail) st).
Proof. unfold_ops. cases. Qed.

Lemma connect_catch_run message (st : St W) :
  connect_catch message st
  = (Return (negb (connectionRequired (guardian st))),
     logged (LogError "ORM:" "Error" message) st).
Proof. destruct st as [g w t]. unfold_ops. cases. Qed.

Lemma connect_establish_connected (st : St W) c :
  connection (guardian st) = Some c ->
  connect_establish orm st = (Return tt, st).
Proof. destruct st as [g w t]. intros H. unfold_ops. cbn in *. rewrite H. cases. Qed.

Lemma connect_establish_disconnected (st : St W) :
  connection (guardian st) = None ->
  connect_establish orm st
  = let arg := establishmentArg (guardian st) in
    let st1 w' := mkSt (guardian st) w' (trace st ++ [CallCreateConnection arg]) in
    match createConnection orm arg (world st) with
    | (Return c, w') =>
        (Return tt, mkSt (set_connection (Some c) (guardian st)) w'
                      (trace st ++ [CallCreateConnection arg]))
    | (Throw message, w') => (Throw message, st1 w')
    end.
Proof.
  destruct st as [g w t]. intros H. unfold_ops. unfold establishmentArg.
  cbn in *. rewrite H. cases.
Qed.

Lemma connect_activate_run (st : St W) c :
  connection (guardian st) = Some c ->
  connect_activate orm st
  = if isConnected orm (world st) c
    then (Return true, logged (LogInfo "ORM:" "Connecting") st)
    else
      match connectionConnect orm c (world st) with
      | (Return _, w') =>
          let st1 := mkSt (guardian st) w' (trace st ++ [CallConnect c]) in
          if isConnected orm w' c
          then (Return true, logged (LogInfo "ORM:" "Connecting") st1)
          else (Return (negb (connectionRequired (guardian st))), st1)
      | (Throw message, w') =>
          (Throw message, mkSt (guardian st) w' (trace st ++ [CallConnect c]))
      end.
Proof.
  destruct st as [g w t]. intros H. unfold_ops.
  cbn in *. rewrite H. cases.
Qed.

Lemma guardian_logged e (st : St W) : guardian (logged e st) = guardian st.
Proof. unfold logged. now destruct (app (guardian st)). Qed.

Lemma world_logged e (st : St W) : world (logged e st) = world st.
Proof. unfold logged. now destruct (app (guardian st)). Qed.

Lemma establishments_app (t u : list Event) :
  establishments (t ++ u) = (establishments t + establishments u)%nat.
Proof. unfold establishments. now rewrite filter_app, length_app. Qed.

Lemma establishments_logged e (st : St W) :
  isEstablishment e = false ->
  establishments (trace (logged e st)) = establishments (trace st).
Proof.
  intros He. unfold logged. destruct (app (guardian st)); [|reflexivity].
  cbn [trace]. rewrite establishments_app. unfold establishments at 2. cbn.
  rewrite He. cbn. lia.
Qed.

Lemma in_trace_logged e (st : St W) :
  app (guardian st) <> None -> In e (trace (logged e st)).
Proof.
  intros Ha. unfold logged. destruct (app (guardian st)); [|congruence].
  cbn. apply in_or_app. right. now left.
Qed.

Lemma connect_unfold (st : St W) :
  connect orm st
  = if live orm (guardian st) (world st) then (Return true, st)
    else
      match connect_try orm st with
      | (Return b, st') => (Return b, st')
      | (Throw message, st') => connect_catch message st'
      end.
Proof.
  unfold connect, bind, this, observe, try_catch.
  destruct (live orm (guardian st) (world st)); reflexivity.
Qed.

Lemma connect_try_unfold (st : St W) :
  connect_try orm st
  = match connect_establish orm (logged (LogInfo "ORM:" "Attempting Connection") st) with
    | (Return _, st1) => connect_activate orm st1
    | (Throw message, st1) => (Throw message, st1)
    end.
Proof.
  unfold connect_try. unfold bind at 1. rewrite app_info_run.
  unfold bind. reflexivity.
Qed.

Lemma onlyConnection_refl g : onlyConnection g g.
Proof. now destruct g. Qed.

Lemma onlyConnection_set g c : onlyConnection g (set_connection c g).
Proof. now destruct g. Qed.

Lemma connect_try_frame (st : St W) :
  onlyConnection (guardian st) (guardian (snd (connect_try orm st))).
Proof.
  rewrite connect_try_unfold.
  set (st0 := logged _ st).
  assert (H0 : guardian st0 = guardian st) by apply guardian_logged.
  destruct (connection (guardian st0)) as [c|] eqn:Hc.
  - rewrite (connect_establish_connected st0 c Hc).
    rewrite (connect_activate_run st0 c Hc).
    repeat case_inner; cbn; rewrite ?guardian_logged; cbn; rewrite ?H0;
      apply onlyConnection_refl.
  - rewrite (connect_establish_disconnected st0 Hc). cbn zeta.
    destruct (createConnection orm _ _) as [[c|m] w'].
    + erewrite connect_activate_run by (cbn; destruct (guardian st0); reflexivity).
      repeat case_inner; cbn; rewrite ?guardian_logged; cbn; rewrite ?H0;
        apply onlyConnection_set.
    + cbn. rewrite H0. apply onlyConnection_refl.
Qed.

Lemma onlyConnection_required g g' :
  onlyConnection g g' -> connectionRequired g' = connectionRequired g.
Proof. intros ->. now destruct g. Qed.

Lemma onlyConnection_cache g g' :
  onlyConnection g g' -> cacheEntry g' = cacheEntry g.
Proof. intros ->. now destruct g. Qed.

Lemma connect_frame (st : St W) :
  onlyConnection (guardian st) (guardian (snd (connect orm st))).
Proof.
  rewrite connect_unfold.
  destruct (live orm (guardian st) (world st)); [apply onlyConnection_refl|].
  pose proof (connect_try_frame st) as H.
  destruct (connect_try orm st) as [[b|m] st']; [exact H|].
  rewrite connect_catch_run. cbn [snd] in *. now rewrite guardian_logged.
Qed.

Lemma connect_returns (st : St W) :
  exists b st', connect orm st = (Return b, st').
Proof.
  rewrite connect_unfold.
  destruct (live orm (guardian st) (world st)); [eauto|].
  destruct (connect_try orm st) as [[b|m] st']; [eauto|].
  rewrite connect_catch_run. eauto.
Qed.

Lemma connect_caught (st st1 : St W) message :
  live orm (guardian st) (world st) = false ->
  connect_try orm st = (Throw message, st1) ->
  connect orm st
  = (Return (if connectionRequired (guardian st) then false else true),
     logged (LogError "ORM:" "Error" message) st1).
Proof.
  intros Hlive Htry.
  pose proof (connect_try_frame st) as Hf. rewrite Htry in Hf. cbn [snd] in Hf.
  rewrite connect_unfold, Hlive, Htry, connect_catch_run.
  rewrite (onlyConnection_required _ _ Hf).
  now destruct (connectionRequired (guardian st)).
Qed.

Lemma live_disconnected g w : connection g = None -> live orm g w = false.
Proof. unfold live. now intros ->. Qed.

Lemma establishment_failure (st : St W) message w' :
  connection (guardian st) = None ->
  createConnection orm (establishmentArg (guardian st)) (world st) = (Throw message, w') ->
  connect_try orm st
  = (Throw message,
     mkSt (guardian st) w'
       (trace (logged (LogInfo "ORM:" "Attempting Connection") st)
        ++ [CallCreateConnection (establishmentArg (guardian st))])).
Proof.
  intros Hc Hthrow.
  rewrite connect_try_unfold, connect_establish_disconnected
    by now rewrite guardian_logged.
  cbn zeta. rewrite guardian_logged, world_logged, Hthrow. reflexivity.
Qed.

Lemma activation_failure (st : St W) c message w' :
  connection (guardian st) = Some c ->
  isConnected orm (world st) c = false ->
  connectionConnect orm c (world st) = (Throw message, w') ->
  connect_try orm st
  = (Throw message,
     mkSt (guardian st) w'
       (trace (logged (LogInfo "ORM:" "Attempting Connection") st) ++ [CallConnect c])).
Proof.
  intros Hc Hdown Hthrow.
  rewrite connect_try_unfold.
  rewrite (connect_establish_connected _ c) by now rewrite guardian_logged.
  rewrite (connect_activate_run _ c) by now rewrite guardian_logged.
  rewrite guardian_logged, world_logged, Hdown, Hthrow. reflexivity.
Qed.

(** C3. [connect()] never propagates an error to its caller: whatever
    typeorm does, the call returns a boolean; an error thrown in the try
    block, be it by the establishment or by the activation of the
    connection, is caught, written to the host's error log, and turned
    into false when connectionRequired is true and into true when it is
    false. *)
Theorem connect_never_throws (st : St W) :
  let g := guardian st in
  let verdict := if connectionRequired g then false else true in
  (exists b st', connect orm st = (Return b, st')) /\
  (forall message st1,
     live orm g (world st) = false ->
     connect_try orm st = (Throw message, st1) ->
     connect orm st = (Return verdict, logged (LogError "ORM:" "Error" message) st1)) /\
  (forall message w',
     connection g = None ->
     createConnection orm (establishmentArg g) (world st) = (Throw message, w') ->
     exists st',
       connect orm st = (Return verdict, st') /\
       (app g <> None -> In (LogError "ORM:" "Error" message) (trace st'))) /\
  (forall c message w',
     connection g = Some c ->
     isConnected orm (world st) c = false ->
     connectionConnect orm c (world st) = (Throw message, w') ->
     exists st',
       connect orm st = (Return verdict, st') /\
       (app g <> None -> In (LogError "ORM:" "Error" message) (trace st'))).
Proof.
  intros g verdict. split; [apply connect_returns|].
  split; [intros message st1; apply connect_caught|].
  split.
  - intros message w' Hc Hthrow.
    eexists. split.
    + apply connect_caught;
        [now apply live_disconnected | eapply establishment_failure; eassumption].
    + intros Ha. apply in_trace_logged. exact Ha.
  - intros c message w' Hc Hdown Hthrow.
    eexists. split.
    + apply connect_caught; [|eapply activation_failure; eassumption].
      unfold live. fold g. now rewrite Hc.
    + intros Ha. apply in_trace_logged. exact Ha.
Qed.

Lemma connect_live (st : St W) :
  live orm (guardian st) (world st) = true -> connect orm st = (Return true, st).
Proof. intros H. now rewrite connect_unfold, H. Qed.

Ltac count_establishments :=
  cbn [snd trace];
  repeat (rewrite ?establishments_logged by reflexivity;
          cbn [snd trace]; rewrite ?establishments_app);
  unfold establishments; cbn; lia.

(** A disconnected guardian calls [createConnection] exactly once per
    [connect()], whatever comes of it. *)
Lemma connect_disconnected_establishes_once (st : St W) :
  connection (guardian st) = None ->
  establishments (trace (snd (connect orm st))) = S (establishments (trace st)).
Proof.
  intros Hc.
  rewrite connect_unfold, (live_disconnected _ _ Hc), connect_try_unfold.
  rewrite connect_establish_disconnected by now rewrite guardian_logged.
  cbn zeta. rewrite guardian_logged, world_logged.
  destruct (createConnection orm _ _) as [[c|m] w1].
  - erewrite connect_activate_run by (cbn; destruct (guardian st); reflexivity).
    cbn [world guardian].
    destruct (isConnected orm w1 c); [count_establishments|].
    destruct (connectionConnect orm c w1) as [[u|m] w2].
    + cbn zeta. destruct (isConnected orm w2 c); count_establishments.
    + rewrite connect_catch_run. count_establishments.
  - rewrite connect_catch_run. count_establishments.
Qed.

(** With a handle in hand, [connect()] never calls [createConnection]. *)
Lemma connect_connected_establishes_nothing (st : St W) c :
  connection (guardian st) = Some c ->
  establishments (trace (snd (connect orm st))) = establishments (trace st).
Proof.
  intros Hc.
  rewrite connect_unfold.
  destruct (live orm (guardian st) (world st)); [reflexivity|].
  rewrite connect_try_unfold.
  rewrite (connect_establish_connected _ c) by now rewrite guardian_logged.
  rewrite (connect_activate_run _ c) by now rewrite guardian_logged.
  rewrite guardian_logged, world_logged.
  destruct (isConnected orm (world st) c); [count_establishments|].
  destruct (connectionConnect orm c (world st)) as [[u|m] w2].
  - cbn zeta. destruct (isConnected orm w2 c); count_establishments.
  - rewrite connect_catch_run. count_establishments.
Qed.

(** C6. A guardian that holds a live connection handle answers
    [connect()] with success at once: no call reaches typeorm and the
    state, trace included, is what it was.  Hence, from a disconnected
    guardian, a successful [connect()] followed by another while the
    connection is still live reports success twice for exactly one
    [createConnection] call. *)
Theorem connect_idempotent (st : St W) :
  (live orm (guardian st) (world st) = true ->
   connect orm st = (Return true, st)) /\
  (forall st1,
     connection (guardian st) = None ->
     connect orm st = (Return true, st1) ->
     live orm (guardian st1) (world st1) = true ->
     connect orm st1 = (Return true, st1) /\
     establishments (trace (snd (connect orm st1))) = S (establishments (trace st))).
Proof.
  split; [apply connect_live|].
  intros st1 Hc H1 Hlive.
  pose proof (connect_disconnected_establishes_once st Hc) as Hn.
  rewrite H1 in Hn. cbn [snd] in Hn.
  rewrite (connect_live st1 Hlive). cbn [snd]. now split.
Qed.

Lemma close_run (st : St W) :
  close orm st
  = match connection (guardian st) with
    | None => (Return true, st)
    | Some c =>
        if isConnected orm (world st) c then
          match connectionClose orm c (world st) with
          | (Return _, w') =>
              (Return (negb (isConnected orm w' c)),
               mkSt (guardian st) w' (trace st ++ [CallClose c]))
          | (Throw message, w') =>
              (Throw message, mkSt (guardian st) w' (trace st ++ [CallClose c]))
          end
        else (Return true, st)
    end.
Proof.
  destruct st as [g w t]. unfold_ops. cases.
  all: match goal with H : Some _ = Some _ |- _ => injection H as -> end.
  all: match goal with H : isConnected _ _ _ = _ |- _ => now rewrite H end.
Qed.

Lemma close_frame (st : St W) : guardian (snd (close orm st)) = guardian st.
Proof. rewrite close_run. repeat case_inner; reflexivity. Qed.

(** C8 (amended). [close()] is a no-op returning success when no
    connection handle exists or the handle is already inactive; otherwise
    it issues one close, and returns success only if the handle is
    inactive afterward.  The guardian keeps its connection handle: no
    field of the guardian changes, and the handle, now inactive, is what
    the next [connect()] activates again. *)
Theorem close_keeps_handle (st : St W) :
  let g := guardian st in
  let after := snd (close orm st) in
  (connection g = None -> close orm st = (Return true, st)) /\
  (forall c, connection g = Some c -> isConnected orm (world st) c = false ->
             close orm st = (Return true, st)) /\
  (forall c, connection g = Some c -> isConnected orm (world st) c = true ->
             trace after = trace st ++ [CallClose c] /\
             world after = snd (connectionClose orm c (world st)) /\
             (fst (close orm st) = Return true ->
              isConnected orm (world after) c = false) /\
             (forall u w', connectionClose orm c (world st) = (Return u, w') ->
                           fst (close orm st) = Return (negb (isConnected orm w' c)))) /\
  guardian after = g /\
  connection (guardian after) = connection g.
Proof.
  intros g after. unfold after, g.
  split; [|split; [|split; [|split]]].
  - intros H. now rewrite close_run, H.
  - intros c H Hd. now rewrite close_run, H, Hd.
  - intros c H Hl. rewrite close_run, H, Hl.
    destruct (connectionClose orm c (world st)) as [[u|m] w']; cbn.
    + repeat split.
      * intros E. injection E as E. now destruct (isConnected orm w' c).
      * intros u' w'' E. now injection E as _ <-.
    + repeat split; [discriminate | intros u' w'' E; discriminate].
  - apply close_frame.
  - now rewrite close_frame.
Qed.

End LifecycleFacts.

Lemma connect_never_throws_witness :
  let required := Sim.fresh Sim.down in
  let optional := mkSt (constructor None (Some Sim.zeroedOptions)) Sim.down [] in
  (connection (guardian required) = None /\
   createConnection Sim.typeorm (establishmentArg (guardian required)) (world required)
   = (Throw Sim.refused, Sim.down) /\
   connectionRequired (guardian required) = true /\
   connectionRequired (guardian optional) = false) /\
  (exists st', connect Sim.typeorm required = (Return false, st')) /\
  (exists st', connect Sim.typeorm optional = (Return true, st')).
Proof.
  cbv zeta. split; [repeat split|]. split.
  - destruct (connect_never_throws Sim.typeorm (Sim.fresh Sim.down))
      as (_ & _ & Hest & _).
    destruct (Hest Sim.refused Sim.down eq_refl eq_refl) as (st' & Hrun & _).
    exists st'. exact Hrun.
  - destruct (connect_never_throws Sim.typeorm
                (mkSt (constructor None (Some Sim.zeroedOptions)) Sim.down []))
      as (_ & _ & Hest & _).
    destruct (Hest Sim.refused Sim.down eq_refl eq_refl) as (st' & Hrun & _).
    exists st'. exact Hrun.
Defined.

Lemma connect_idempotent_witness :
  let st := Sim.fresh (Sim.upOneRow []) in
  let st1 := snd (connect Sim.typeorm st) in
  (connection (guardian st) = None /\
   connect Sim.typeorm st = (Return true, st1) /\
   live Sim.typeorm (guardian st1) (world st1) = true) /\
  connect Sim.typeorm st1 = (Return true, st1) /\
  establishments (trace (snd (connect Sim.typeorm st1))) = 1%nat.
Proof.
  cbv zeta. split.
  - repeat split.
  - apply (proj2 (connect_idempotent Sim.typeorm (Sim.fresh (Sim.upOneRow []))));
      reflexivity.
Defined.

(** C8, as stated, fails: a successful [close()] leaves the connection
    handle in place; the field does not become empty. *)
Lemma close_does_not_clear_handle :
  let st := snd (connect Sim.typeorm (Sim.fresh (Sim.upOneRow []))) in
  connection (guardian st) = Some 0%nat /\
  isConnected Sim.typeorm (world st) 0%nat = true /\
  fst (close Sim.typeorm st) = Return true /\
  connection (guardian (snd (close Sim.typeorm st))) = Some 0%nat /\
  connection (guardian (snd (close Sim.typeorm st))) <> None.
Proof.
  cbv zeta. repeat split. discriminate.
Qed.

Lemma close_keeps_handle_witness :
  let st := snd (connect Sim.typeorm (Sim.fresh (Sim.upOneRow []))) in
  (connection (guardian st) = Some 0%nat /\
   isConnected Sim.typeorm (world st) 0%nat = true) /\
  trace (snd (close Sim.typeorm st)) = trace st ++ [CallClose 0%nat] /\
  connection (guardian (snd (close Sim.typeorm st))) = connection (guardian st).
Proof.
  cbv zeta. split.
  - split; reflexivity.
  - pose proof (close_keeps_handle Sim.typeorm
                  (snd (connect Sim.typeorm (Sim.fresh (Sim.upOneRow [])))))
      as H.
    cbv zeta in H.
    destruct H as (_ & _ & Hlive & _ & Hkeep).
    destruct (Hlive 0%nat eq_refl eq_refl) as (Htrace & _).
    split; [exact Htrace | exact Hkeep].
Defined.

(** ** The health cache *)

Section HealthFacts.
Context {W : Type} (orm : Typeorm W).
Import Async.

Lemma cachedResult_some g now r :
  cachedResult g now = Some r <->
  r = true /\ _lastHealthCheckResult g = Some true /\
  exists last, _lastHealthCheck g = Some last /\ (now - healthCheckInterval g <= last)%Z.
Proof.
  unfold cachedResult.
  destruct (_lastHealthCheck g) as [last|], (_lastHealthCheckResult g) as [[|]|];
    try (split; [discriminate | intros (_ & H & l & Hl & _); congruence]).
  destruct (Z.geb_spec last (now - healthCheckInterval g)) as [Hge|Hlt].
  - split.
    + intros E. injection E as <-. repeat split. exists last. split; [reflexivity|lia].
    + intros (-> & _). reflexivity.
  - split; [discriminate|].
    intros (_ & _ & l & Hl & Hle). injection Hl as <-. lia.
Qed.

Lemma healthCheck_unfold (st : St W) :
  healthCheck orm st
  = if unhealthyWithoutConnection (guardian st) then
      match cachedResult (guardian st) (getTime orm (world st)) with
      | Some r => (Return r, st)
      | None =>
          match connect orm st with
          | (Return _, st1) => healthCheck_probe orm st1
          | (Throw message, st1) => (Throw message, st1)
          end
      end
    else (Return true, st).
Proof.
  unfold healthCheck, bind, this, observe, ret. cbn.
  destruct (unhealthyWithoutConnection (guardian st)); [|reflexivity].
  cbn. destruct (cachedResult _ _); reflexivity.
Qed.

Lemma healthCheck_probe_run (st : St W) :
  healthCheck_probe orm st
  = match connection (guardian st) with
    | None => (Return false, st)
    | Some c =>
        if isConnected orm (world st) c then
          let q := healthCheckQuery (guardian st) in
          let (answer, w') := connectionQuery orm c q (world st) in
          let result := match answer with
                        | Return check => (0 <? check)%nat
                        | Throw _ => false
                        end in
          (Return result,
           mkSt (set_lastHealthCheckResult (Some result)
                   (set_lastHealthCheck (Some (getTime orm w')) (guardian st)))
             w' (trace st ++ [CallQuery c q]))
        else (Return false, st)
    end.
Proof. destruct st as [g w t]. unfold_ops. cases. Qed.

(** The check proper: [connect()], then the probe. *)
Lemma healthCheck_uncached (st : St W) :
  unhealthyWithoutConnection (guardian st) = true ->
  cachedResult (guardian st) (getTime orm (world st)) = None ->
  healthCheck orm st = healthCheck_probe orm (snd (connect orm st)).
Proof.
  intros Hu Hc. rewrite healthCheck_unfold, Hu, Hc.
  destruct (connect_returns orm st) as (b & st1 & ->). reflexivity.
Qed.

(** A fresh cached [true] is served without any work. *)
Lemma healthCheck_serves_cached_true (st : St W) last :
  unhealthyWithoutConnection (guardian st) = true ->
  _lastHealthCheck (guardian st) = Some last ->
  _lastHealthCheckResult (guardian st) = Some true ->
  (getTime orm (world st) - healthCheckInterval (guardian st) <= last)%Z ->
  healthCheck orm st = (Return true, st).
Proof.
  intros Hu Hl Hr Hle.
  assert (Hc : cachedResult (guardian st) (getTime orm (world st)) = Some true).
  { apply cachedResult_some. repeat split; [assumption|]. now exists last. }
  now rewrite healthCheck_unfold, Hu, Hc.
Qed.

(** A cached [false] is never served. *)
Lemma cached_false_not_served g now :
  _lastHealthCheckResult g = Some false -> cachedResult g now = None.
Proof.
  intros H. unfold cachedResult. rewrite H. now destruct (_lastHealthCheck g).
Qed.

Lemma healthCheck_ignores_cached_false (st : St W) :
  unhealthyWithoutConnection (guardian st) = true ->
  _lastHealthCheckResult (guardian st) = Some false ->
  healthCheck orm st = healthCheck_probe orm (snd (connect orm st)).
Proof.
  intros Hu Hr. apply healthCheck_uncached; [exact Hu|].
  now apply cached_false_not_served.
Qed.

(** Past the interval the cache is not consulted. *)
Lemma healthCheck_expired (st : St W) last :
  unhealthyWithoutConnection (guardian st) = true ->
  _lastHealthCheck (guardian st) = Some last ->
  (last < getTime orm (world st) - healthCheckInterval (guardian st))%Z ->
  healthCheck orm st = healthCheck_probe orm (snd (connect orm st)).
Proof.
  intros Hu Hl Hlt. apply healthCheck_uncached; [exact Hu|].
  destruct (cachedResult _ _) as [r|] eqn:E; [|reflexivity].
  apply cachedResult_some in E. destruct E as (_ & _ & l & Hl' & Hle).
  rewrite Hl in Hl'. injection Hl' as <-. lia.
Qed.

(** The probe on a live connection runs the query once and writes both
    cache fields: the clock after the query and the value returned. *)
Lemma healthCheck_probe_live (st : St W) c :
  connection (guardian st) = Some c ->
  isConnected orm (world st) c = true ->
  exists r st',
    healthCheck_probe orm st = (Return r, st') /\
    cacheEntry (guardian st') = (Some (getTime orm (world st')), Some r) /\
    trace st' = trace st ++ [CallQuery c (healthCheckQuery (guardian st))].
Proof.
  intros Hc Hl. rewrite healthCheck_probe_run, Hc, Hl. cbn zeta.
  destruct (connectionQuery orm c _ _) as [answer w'].
  eexists. eexists. split; [reflexivity|]. split; reflexivity.
Qed.

(** The probe without a live connection returns false and writes
    nothing. *)
Lemma healthCheck_probe_dead (st : St W) :
  live orm (guardian st) (world st) = false ->
  healthCheck_probe orm st = (Return false, st).
Proof.
  unfold live. intros H. rewrite healthCheck_probe_run.
  destruct (connection (guardian st)); [now rewrite H | reflexivity].
Qed.

(** C7. With unhealthyWithoutConnection false every [healthCheck()]
    returns true, whether or not a connection was ever established, and
    leaves the whole state as it was: the connection handle, both cache
    fields, and typeorm untouched. *)
Theorem healthCheck_opt_out (st : St W) :
  unhealthyWithoutConnection (guardian st) = false ->
  healthCheck orm st = (Return true, st).
Proof.
  intros H. now rewrite healthCheck_unfold, H.
Qed.

Lemma healthCheck_returns (st : St W) :
  exists r st', healthCheck orm st = (Return r, st').
Proof.
  rewrite healthCheck_unfold.
  destruct (unhealthyWithoutConnection (guardian st)); [|eauto].
  destruct (cachedResult _ _); [eauto|].
  destruct (connect_returns orm st) as (b & st1 & ->).
  rewrite healthCheck_probe_run. cbn zeta.
  repeat case_inner; do 2 eexists; reflexivity.
Qed.

(** What [healthCheck] does to the cache: nothing, or both fields at
    once, the result being the value returned and the timestamp the
    clock at return. *)
Lemma healthCheck_cache (st : St W) :
  let after := snd (healthCheck orm st) in
  cacheEntry (guardian after) = cacheEntry (guardian st) \/
  exists r,
    fst (healthCheck orm st) = Return r /\
    cacheEntry (guardian after) = (Some (getTime orm (world after)), Some r).
Proof.
  cbv zeta. rewrite healthCheck_unfold.
  destruct (unhealthyWithoutConnection (guardian st)); [|now left].
  destruct (cachedResult _ _); [now left|].
  pose proof (connect_frame orm st) as Hf.
  destruct (connect_returns orm st) as (b & st1 & E). rewrite E in *. cbn [snd] in Hf.
  apply onlyConnection_cache in Hf.
  destruct (live orm (guardian st1) (world st1)) eqn:Hl.
  - right. unfold live in Hl.
    destruct (connection (guardian st1)) as [c|] eqn:Hc; [|discriminate].
    destruct (healthCheck_probe_live st1 c Hc Hl) as (r & st' & -> & Hcache & _).
    exists r. now split.
  - left. now rewrite healthCheck_probe_dead.
Qed.

Lemma getConnection_frame (st : St W) :
  onlyConnection (guardian st) (guardian (snd (getConnection orm st))).
Proof.
  pose proof (connect_frame orm st) as Hf.
  destruct (connect_returns orm st) as (b & st1 & E). rewrite E in Hf. cbn [snd] in Hf.
  cbv [getConnection bind this observe ret extern].
  destruct (live orm (guardian st) (world st)); cbn [negb]; rewrite ?E;
    repeat case_inner; cbn [snd guardian];
    first [apply onlyConnection_refl | exact Hf].
Qed.

Lemma exec_cache (op : Op) (st : St W) :
  op <> OpHealthCheck ->
  cacheEntry (guardian (exec orm op st)) = cacheEntry (guardian st).
Proof.
  intros Hop. destruct op; cbn [exec]; try congruence.
  - apply onlyConnection_cache, connect_frame.
  - now rewrite close_frame.
  - apply onlyConnection_cache, getConnection_frame.
Qed.

Lemma cachePaired_entry g g' :
  cacheEntry g' = cacheEntry g -> cachePaired g -> cachePaired g'.
Proof.
  unfold cacheEntry, cachePaired. intros E. injection E as -> ->. trivial.
Qed.

Lemma constructor_cache a opts : cacheEntry (constructor a opts) = (None, None).
Proof.
  unfold constructor, bindTo.
  destruct opts as [[name co req unh att q hci cf]|], a; cbn;
    repeat case_inner; reflexivity.
Qed.

Lemma setConnectionOptions_cache o g :
  cacheEntry (snd (setConnectionOptions o g)) = cacheEntry g.
Proof.
  unfold setConnectionOptions. destruct g. cbn. repeat case_inner; reflexivity.
Qed.

Lemma exec_paired (op : Op) (st : St W) :
  cachePaired (guardian st) -> cachePaired (guardian (exec orm op st)).
Proof.
  intros Hp.
  destruct op; try (apply (cachePaired_entry (guardian st)); [|exact Hp];
                    apply exec_cache; discriminate).
  cbn [exec].
  destruct (healthCheck_cache st) as [E | (r & _ & E)].
  - now apply (cachePaired_entry (guardian st)).
  - unfold cacheEntry in E. injection E as E1 E2.
    unfold cachePaired. rewrite E1, E2. split; discriminate.
Qed.

Lemma reachable_paired (st : St W) : reachable orm st -> cachePaired (guardian st).
Proof.
  induction 1 as [a opts w | op st _ IH | st w' _ IH | st g' _ IH Hp | st o _ IH].
  - cbn. pose proof (constructor_cache a opts) as E.
    unfold cacheEntry in E. injection E as E1 E2.
    unfold cachePaired. rewrite E1, E2. tauto.
  - now apply exec_paired.
  - exact IH.
  - cbn. destruct Hp as (_ & H1 & H2 & _).
    unfold cachePaired. now rewrite H1, H2.
  - cbn. apply (cachePaired_entry (guardian st)); [|exact IH].
    apply setConnectionOptions_cache.
Qed.

(** C9. In every reachable state the last-health-check timestamp is
    absent exactly when the last-health-check result is absent.  The
    operations connect, close and getConnection leave both fields as they
    are; healthCheck leaves both as they are or writes both together, the
    result being the value it returns and the timestamp the clock at its
    return. *)
Theorem cache_fields_written_together (st : St W) :
  reachable orm st ->
  cachePaired (guardian st) /\
  (forall op, cachePaired (guardian (exec orm op st))) /\
  (forall op, op <> OpHealthCheck ->
              cacheEntry (guardian (exec orm op st)) = cacheEntry (guardian st)) /\
  (let after := snd (healthCheck orm st) in
   cacheEntry (guardian after) = cacheEntry (guardian st) \/
   exists r,
     fst (healthCheck orm st) = Return r /\
     cacheEntry (guardian after) = (Some (getTime orm (world after)), Some r)).
Proof.
  intros Hr. pose proof (reachable_paired st Hr) as Hp.
  split; [exact Hp|].
  split; [intros op; now apply exec_paired|].
  split; [intros op; apply exec_cache | apply healthCheck_cache].
Qed.

End HealthFacts.

Lemma healthCheck_opt_out_witness :
  let st := mkSt (constructor None (Some Sim.zeroedOptions)) Sim.down [] in
  unhealthyWithoutConnection (guardian st) = false /\
  healthCheck Sim.typeorm st = (Return true, st).
Proof.
  cbv zeta. split.
  - reflexivity.
  - apply (healthCheck_opt_out Sim.typeorm). reflexivity.
Defined.

Lemma cache_fields_written_together_witness :
  let st := exec Sim.typeorm OpHealthCheck (Sim.fresh Sim.upEmpty) in
  reachable Sim.typeorm st /\
  cacheEntry (guardian st) = (Some 1000, Some false) /\
  cachePaired (guardian st).
Proof.
  cbv zeta.
  assert (Hr : reachable Sim.typeorm
                 (exec Sim.typeorm OpHealthCheck (Sim.fresh Sim.upEmpty))).
  { apply reach_op. apply reach_new. }
  split; [exact Hr|].
  split; [reflexivity|].
  exact (proj1 (cache_fields_written_together Sim.typeorm _ Hr)).
Defined.

(** C1 at a failing input.  The first [healthCheck()] runs the query, gets
    no row, returns false and caches false at instant 1000.  The second
    call comes at the same instant, well within healthCheckInterval; the
    cached false is not served: the query runs again and, the database
    now answering with a row, the call returns true. *)
Theorem healthCheck_cached_false_is_rechecked :
  let first := healthCheck Sim.typeorm (Sim.fresh Sim.upEmpty) in
  let st1 := Sim.later (Sim.upOneRow [true]) (snd first) in
  let second := healthCheck Sim.typeorm st1 in
  fst first = Return false /\
  cacheEntry (guardian st1) = (Some 1000, Some false) /\
  unhealthyWithoutConnection (guardian st1) = true /\
  (getTime Sim.typeorm (world st1) - healthCheckInterval (guardian st1) <= 1000)%Z /\
  fst second = Return true /\
  queries (trace (snd second)) = S (queries (trace st1)) /\
  cacheEntry (guardian (snd second)) = (Some 1000, Some true).
Proof.
  cbv zeta. repeat split. cbn. lia.
Qed.

(** C2 at a failing input.  The database is down: [healthCheck()] gets
    past the cache guard, [connect()] fails, and the call returns false
    from the guard on the connection with both cache fields still unset.
    The query-error path, from the same kind of state, does write them. *)
Theorem healthCheck_without_connection_skips_cache :
  let run := healthCheck Sim.typeorm (Sim.fresh Sim.down) in
  let lost := Sim.later Sim.downAfterConnect
                (snd (connect Sim.typeorm (Sim.fresh Sim.upEmpty))) in
  cachedResult (guardian (Sim.fresh Sim.down)) 1000 = None /\
  fst run = Return false /\
  trace (snd run) = [CallCreateConnection ByDefault] /\
  cacheEntry (guardian (snd run)) = (None, None) /\
  fst (healthCheck Sim.typeorm lost) = Return false /\
  cacheEntry (guardian (snd (healthCheck Sim.typeorm lost))) = (Some 1000, Some false).
Proof.
  cbv zeta. repeat split.
Qed.

(** ** More on the lifecycle controller *)

(** Unfolds the run of [connect] on a state split into its fields, and
    settles what is left by counting events. *)
Ltac by_cases_on_run :=
  repeat case_inner; cbn [fst snd guardian world trace connection];
  unfold logged; cbn [guardian world trace app connection];
  repeat case_inner; cbn [fst snd guardian world trace connection].

Ltac count_events :=
  unfold establishments, queries, activations, closings;
  rewrite ?filter_app, ?length_app; cbn; try lia.

Section ConnectFacts.
Context {W : Type} (orm : Typeorm W).

Lemma connect_held_run (st : St W) c :
  connection (guardian st) = Some c ->
  isConnected orm (world st) c = false ->
  connect orm st
  = let t1 := trace (logged (LogInfo "ORM:" "Attempting Connection") st)
              ++ [CallConnect c] in
    let verdict := negb (connectionRequired (guardian st)) in
    match connectionConnect orm c (world st) with
    | (Return _, w') =>
        if isConnected orm w' c
        then (Return true,
              logged (LogInfo "ORM:" "Connecting") (mkSt (guardian st) w' t1))
        else (Return verdict, mkSt (guardian st) w' t1)
    | (Throw message, w') =>
        (Return verdict,
         logged (LogError "ORM:" "Error" message) (mkSt (guardian st) w' t1))
    end.
Proof.
  intros Hc Hd.
  assert (Hl : live orm (guardian st) (world st) = false)
    by (unfold live; now rewrite Hc).
  rewrite connect_unfold, Hl, connect_try_unfold.
  rewrite (connect_establish_connected orm _ c) by now rewrite guardian_logged.
  rewrite (connect_activate_run orm _ c) by now rewrite guardian_logged.
  rewrite guardian_logged, world_logged, Hd.
  destruct (connectionConnect orm c (world st)) as [[u|m] w'].
  - cbn zeta. destruct (isConnected orm w' c); reflexivity.
  - now rewrite connect_catch_run.
Qed.

Lemma connect_disconnected_run (st : St W) :
  connection (guardian st) = None ->
  connect orm st
  = let g := guardian st in
    let arg := establishmentArg g in
    let t1 := trace (logged (LogInfo "ORM:" "Attempting Connection") st)
              ++ [CallCreateConnection arg] in
    let verdict := negb (connectionRequired g) in
    match createConnection orm arg (world st) with
    | (Throw message, w1) =>
        (Return verdict, logged (LogError "ORM:" "Error" message) (mkSt g w1 t1))
    | (Return c, w1) =>
        let g1 := set_connection (Some c) g in
        if isConnected orm w1 c
        then (Return true, logged (LogInfo "ORM:" "Connecting") (mkSt g1 w1 t1))
        else
          match connectionConnect orm c w1 with
          | (Return _, w2) =>
              if isConnected orm w2 c
              then (Return true,
                    logged (LogInfo "ORM:" "Connecting")
                      (mkSt g1 w2 (t1 ++ [CallConnect c])))
              else (Return verdict, mkSt g1 w2 (t1 ++ [CallConnect c]))
          | (Throw message, w2) =>
              (Return verdict,
               logged (LogError "ORM:" "Error" message)
                 (mkSt g1 w2 (t1 ++ [CallConnect c])))
          end
    end.
Proof.
  intros Hc.
  rewrite connect_unfold, (live_disconnected orm _ _ Hc), connect_try_unfold.
  rewrite connect_establish_disconnected by now rewrite guardian_logged.
  cbn zeta. rewrite guardian_logged, world_logged.
  destruct (createConnection orm _ _) as [[c|m] w1].
  - erewrite connect_activate_run by (cbn; destruct (guardian st); reflexivity).
    cbn [world guardian].
    destruct (isConnected orm w1 c); [reflexivity|].
    destruct (connectionConnect orm c w1) as [[u|m] w2].
    + cbn zeta. destruct (isConnected orm w2 c);
        [reflexivity | now destruct (guardian st)].
    + rewrite connect_catch_run. now destruct (guardian st).
  - now rewrite connect_catch_run.
Qed.

Lemma establishmentArg_priority (g : MicroserviceORM) :
  (forall o, _connectionOptions g = Some o -> establishmentArg g = ByOptions o) /\
  (forall n, _connectionOptions g = None -> _connectionName g = Some n ->
             n <> EmptyString -> establishmentArg g = ByName n) /\
  (_connectionOptions g = None ->
   Js.is_set Js.truthy_str (_connectionName g) = false ->
   establishmentArg g = ByDefault).
Proof.
  unfold establishmentArg, Js.is_set. repeat split.
  - now intros o ->.
  - intros n -> -> Hn. destruct n; [contradiction | reflexivity].
  - intros -> Hn. destruct (_connectionName g); [now rewrite Hn | reflexivity].
Qed.

(** X1. A disconnected guardian's [connect()] calls [createConnection]
    first and once: with the explicit connection options if the guardian
    has them, else with its connection name if that is a non-empty string,
    else without argument. *)
Theorem connect_establishment_priority (st : St W) :
  connection (guardian st) = None ->
  let g := guardian st in
  exists arg rest,
    trace (snd (connect orm st))
    = trace (logged (LogInfo "ORM:" "Attempting Connection") st)
      ++ CallCreateConnection arg :: rest /\
    establishments rest = 0%nat /\
    (forall o, _connectionOptions g = Some o -> arg = ByOptions o) /\
    (forall n, _connectionOptions g = None -> _connectionName g = Some n ->
               n <> EmptyString -> arg = ByName n) /\
    (_connectionOptions g = None ->
     Js.is_set Js.truthy_str (_connectionName g) = false -> arg = ByDefault).
Proof.
  intros Hc g.
  exists (establishmentArg g).
  assert (Hrest : exists rest,
             trace (snd (connect orm st))
             = trace (logged (LogInfo "ORM:" "Attempting Connection") st)
               ++ CallCreateConnection (establishmentArg g) :: rest /\
             establishments rest = 0%nat).
  { rewrite (connect_disconnected_run st Hc). cbv zeta. fold g.
    generalize (trace (logged (LogInfo "ORM:" "Attempting Connection") st)).
    intros t0. by_cases_on_run;
      rewrite <- ?app_assoc; cbn [List.app];
      (eexists; split; [reflexivity | count_events]). }
  destruct Hrest as (rest & Htrace & Hnone).
  exists rest. split; [exact Htrace|]. split; [exact Hnone|].
  apply establishmentArg_priority.
Qed.

Lemma held_handle_reactivation (st : St W) (c : Connection) :
  connection (guardian st) = Some c ->
  isConnected orm (world st) c = false ->
  connection (guardian (snd (connect orm st))) = Some c /\
  establishments (trace (snd (connect orm st))) = establishments (trace st) /\
  In (CallConnect c) (trace (snd (connect orm st))).
Proof.
  intros Hc Hd. rewrite (connect_held_run st c Hc Hd). cbv zeta.
  destruct st as [g w t]. cbn [guardian world trace] in *.
  by_cases_on_run; repeat split; try assumption; try count_events;
    rewrite <- ?app_assoc; cbn [List.app];
    apply in_or_app; right; cbn; intuition.
Qed.

(** X2. A guardian that holds a handle which is not connected never
    creates another connection: [connect()] activates the handle it holds
    with one [connection.connect()] call and keeps that handle. *)
Theorem connect_reactivates_held_handle (st : St W) (c : Connection) :
  connection (guardian st) = Some c ->
  isConnected orm (world st) c = false ->
  let after := snd (connect orm st) in
  connection (guardian after) = Some c /\
  establishments (trace after) = establishments (trace st) /\
  activations (trace after) = S (activations (trace st)) /\
  In (CallConnect c) (trace after).
Proof.
  intros Hc Hd. cbv zeta. rewrite (connect_held_run st c Hc Hd). cbv zeta.
  destruct st as [g w t]. cbn [guardian world trace] in *.
  by_cases_on_run; repeat split; try assumption; try count_events;
    rewrite <- ?app_assoc; cbn [List.app];
    apply in_or_app; right; cbn; intuition.
Qed.

(** X3. With connectionRequired false, [connect()] reports success
    whatever happens to the connection. *)
Theorem connect_optional_reports_success (st : St W) :
  connectionRequired (guardian st) = false ->
  fst (connect orm st) = Return true.
Proof.
  intros Hr.
  destruct (live orm (guardian st) (world st)) eqn:Hl;
    [now rewrite connect_live|].
  destruct (connection (guardian st)) as [c|] eqn:Hc.
  - unfold live in Hl. rewrite Hc in Hl.
    rewrite (connect_held_run st c Hc Hl). cbv zeta. rewrite Hr.
    repeat case_inner; reflexivity.
  - rewrite (connect_disconnected_run st Hc). cbv zeta. rewrite Hr.
    repeat case_inner; reflexivity.
Qed.

Lemma live_logged e (st : St W) :
  live orm (guardian (logged e st)) (world (logged e st))
  = live orm (guardian st) (world st).
Proof. now rewrite guardian_logged, world_logged. Qed.

(** X4. With connectionRequired true, a [connect()] that reports success
    leaves the guardian with a live connection. *)
Theorem connect_required_success_means_live (st st' : St W) :
  connectionRequired (guardian st) = true ->
  connect orm st = (Return true, st') ->
  live orm (guardian st') (world st') = true.
Proof.
  intros Hr Hrun.
  destruct (live orm (guardian st) (world st)) eqn:Hl.
  - rewrite connect_live in Hrun by assumption. now injection Hrun as <-.
  - destruct (connection (guardian st)) as [c|] eqn:Hc.
    + unfold live in Hl. rewrite Hc in Hl.
      rewrite (connect_held_run st c Hc Hl) in Hrun. cbv zeta in Hrun.
      rewrite Hr in Hrun. cbn [negb] in Hrun.
      destruct (connectionConnect orm c (world st)) as [[u|m] w'];
        [|discriminate].
      destruct (isConnected orm w' c) eqn:Hup; [|discriminate].
      injection Hrun as <-. rewrite live_logged. unfold live. cbn.
      now rewrite Hc.
    + rewrite (connect_disconnected_run st Hc) in Hrun. cbv zeta in Hrun.
      rewrite Hr in Hrun. cbn [negb] in Hrun.
      destruct (createConnection orm _ _) as [[c|m] w1]; [|discriminate].
      destruct (isConnected orm w1 c) eqn:Hup1.
      * injection Hrun as <-. rewrite live_logged. unfold live.
        destruct (guardian st). cbn. exact Hup1.
      * destruct (connectionConnect orm c w1) as [[u|m] w2]; [|discriminate].
        destruct (isConnected orm w2 c) eqn:Hup2; [|discriminate].
        injection Hrun as <-. rewrite live_logged. unfold live.
        destruct (guardian st). cbn. exact Hup2.
Qed.

(** [connect()] issues neither a query nor a close. *)
Lemma connect_no_query_no_close (st : St W) :
  queries (trace (snd (connect orm st))) = queries (trace st) /\
  closings (trace (snd (connect orm st))) = closings (trace st).
Proof.
  destruct (live orm (guardian st) (world st)) eqn:Hl;
    [now rewrite connect_live|].
  destruct (connection (guardian st)) as [c|] eqn:Hc.
  - unfold live in Hl. rewrite Hc in Hl.
    rewrite (connect_held_run st c Hc Hl). cbv zeta.
    destruct st as [g w t]. cbn [guardian world trace] in *.
    by_cases_on_run; split; count_events.
  - rewrite (connect_disconnected_run st Hc). cbv zeta.
    destruct st as [g w t]. cbn [guardian world trace] in *.
    by_cases_on_run; split; count_events.
Qed.

End ConnectFacts.

Section CloseFacts.
Context {W : Type} (orm : Typeorm W).

(** X5. [close()] is idempotent: after a close that reported success,
    another close reports success at once, without calling typeorm. *)
Theorem close_twice (st st1 : St W) :
  close orm st = (Return true, st1) ->
  close orm st1 = (Return true, st1).
Proof.
  rewrite close_run. intros Hrun.
  destruct (connection (guardian st)) as [c|] eqn:Hc.
  - destruct (isConnected orm (world st) c) eqn:Hup.
    + destruct (connectionClose orm c (world st)) as [[u|m] w']; [|discriminate].
      injection Hrun as Hdown <-.
      rewrite close_run. cbn [guardian world]. rewrite Hc.
      apply negb_true_iff in Hdown. now rewrite Hdown.
    + injection Hrun as <-. now rewrite close_run, Hc, Hup.
  - injection Hrun as <-. now rewrite close_run, Hc.
Qed.

(** X6. [close()] catches nothing: an error thrown by
    [connection.close()] on a live handle reaches the caller, and the
    guardian is left as it was, handle included. *)
Theorem close_propagates_error (st : St W) (c : Connection) message w' :
  connection (guardian st) = Some c ->
  isConnected orm (world st) c = true ->
  connectionClose orm c (world st) = (Throw message, w') ->
  fst (close orm st) = Throw message /\
  guardian (snd (close orm st)) = guardian st /\
  closings (trace (snd (close orm st))) = S (closings (trace st)).
Proof.
  intros Hc Hup Hthrow. rewrite close_run, Hc, Hup, Hthrow. cbn.
  repeat split. count_events.
Qed.

(** X7. After a [close()] that reported success, [connect()] brings the
    same handle back with [connection.connect()]: no second connection is
    created over the guardian's lifetime. *)
Theorem close_then_connect_reuses_handle (st st1 : St W) (c : Connection) :
  connection (guardian st) = Some c ->
  close orm st = (Return true, st1) ->
  connection (guardian (snd (connect orm st1))) = Some c /\
  establishments (trace (snd (connect orm st1))) = establishments (trace st) /\
  In (CallConnect c) (trace (snd (connect orm st1))).
Proof.
  intros Hc Hrun.
  assert (Hg : guardian st1 = guardian st).
  { pose proof (close_frame orm st) as Hf. now rewrite Hrun in Hf. }
  assert (Hc1 : connection (guardian st1) = Some c) by now rewrite Hg.
  assert (Hdown : isConnected orm (world st1) c = false).
  { rewrite close_run, Hc in Hrun.
    destruct (isConnected orm (world st) c) eqn:Hup.
    - destruct (connectionClose orm c (world st)) as [[u|m] w']; [|discriminate].
      injection Hrun as Hd <-. now apply negb_true_iff in Hd.
    - now injection Hrun as <-. }
  assert (Ht : establishments (trace st1) = establishments (trace st)).
  { rewrite close_run, Hc in Hrun.
    destruct (isConnected orm (world st) c).
    - destruct (connectionClose orm c (world st)) as [[u|m] w']; [|discriminate].
      injection Hrun as _ <-. cbn [trace]. count_events.
    - now injection Hrun as <-. }
  destruct (held_handle_reactivation orm st1 c Hc1 Hdown) as (H1 & H2 & H3).
  repeat split; [exact H1 | now rewrite H2 | exact H3].
Qed.

End CloseFacts.

(** ** More on the health cache *)

Section HealthCheckFacts.
Context {W : Type} (orm : Typeorm W).

Lemma onlyConnection_query g g' :
  onlyConnection g g' -> healthCheckQuery g' = healthCheckQuery g.
Proof. intros ->. now destruct g. Qed.

(** X8. [healthCheck()] never throws: whatever typeorm does, the call
    returns a boolean.  In particular, when the check query throws on a
    live connection the call returns false and caches that false with the
    clock after the failed query. *)
Theorem healthCheck_never_throws (st : St W) :
  (exists r st', healthCheck orm st = (Return r, st')) /\
  (forall c message w',
     unhealthyWithoutConnection (guardian st) = true ->
     cachedResult (guardian st) (getTime orm (world st)) = None ->
     let st1 := snd (connect orm st) in
     connection (guardian st1) = Some c ->
     isConnected orm (world st1) c = true ->
     connectionQuery orm c (healthCheckQuery (guardian st)) (world st1)
     = (Throw message, w') ->
     exists st',
       healthCheck orm st = (Return false, st') /\
       world st' = w' /\
       cacheEntry (guardian st') = (Some (getTime orm w'), Some false)).
Proof.
  split.
  - rewrite healthCheck_unfold.
    destruct (unhealthyWithoutConnection (guardian st)); [|eauto].
    destruct (cachedResult _ _); [eauto|].
    destruct (connect_returns orm st) as (b & st1 & ->).
    rewrite healthCheck_probe_run. cbn zeta.
    repeat case_inner; do 2 eexists; reflexivity.
  - intros c message w' Hu Hcache st1 Hc Hup Hq. subst st1.
    rewrite (healthCheck_uncached orm st Hu Hcache).
    rewrite healthCheck_probe_run, Hc, Hup. cbn zeta.
    rewrite (onlyConnection_query _ _ (connect_frame orm st)), Hq.
    eexists. split; [reflexivity|]. split; reflexivity.
Qed.

(** X9. The verdict of a check that is not served from the cache: false
    when no live connection exists after the connect attempt, even if
    [connect()] itself reported success because connections are not
    required; otherwise true exactly when the check query returns at least
    one row. *)
Theorem healthCheck_verdict (st : St W) :
  unhealthyWithoutConnection (guardian st) = true ->
  cachedResult (guardian st) (getTime orm (world st)) = None ->
  let st1 := snd (connect orm st) in
  (live orm (guardian st1) (world st1) = false ->
   healthCheck orm st = (Return false, st1)) /\
  (forall c check w',
     connection (guardian st1) = Some c ->
     isConnected orm (world st1) c = true ->
     connectionQuery orm c (healthCheckQuery (guardian st)) (world st1)
     = (Return check, w') ->
     fst (healthCheck orm st) = Return (0 <? check)%nat).
Proof.
  intros Hu Hcache st1. subst st1.
  rewrite (healthCheck_uncached orm st Hu Hcache).
  split.
  - apply healthCheck_probe_dead.
  - intros c check w' Hc Hup Hq.
    rewrite healthCheck_probe_run, Hc, Hup. cbn zeta.
    rewrite (onlyConnection_query _ _ (connect_frame orm st)).
    now rewrite Hq.
Qed.

Lemma probe_counts (st : St W) :
  let after := snd (healthCheck_probe orm st) in
  (queries (trace after) = queries (trace st) \/
   queries (trace after) = S (queries (trace st))) /\
  establishments (trace after) = establishments (trace st) /\
  closings (trace after) = closings (trace st).
Proof.
  cbv zeta. rewrite healthCheck_probe_run. cbn zeta.
  repeat case_inner; cbn [snd trace]; repeat split; auto; count_events.
Qed.

(** X10. One [healthCheck()] costs at most one query and at most one
    [createConnection] call, and never closes a connection. *)
Theorem healthCheck_call_budget (st : St W) :
  let after := snd (healthCheck orm st) in
  (queries (trace after) <= S (queries (trace st)))%nat /\
  (queries (trace st) <= queries (trace after))%nat /\
  (establishments (trace after) <= S (establishments (trace st)))%nat /\
  closings (trace after) = closings (trace st).
Proof.
  cbv zeta. rewrite healthCheck_unfold.
  destruct (unhealthyWithoutConnection (guardian st)); [|cbn; lia].
  destruct (cachedResult _ _); [cbn; lia|].
  destruct (connect_returns orm st) as (b & st1 & E). rewrite E.
  destruct (connect_no_query_no_close orm st) as (Hq & Hcl).
  rewrite E in Hq, Hcl. cbn [snd] in Hq, Hcl.
  assert (He : (establishments (trace st1) <= S (establishments (trace st)))%nat).
  { destruct (connection (guardian st)) as [c|] eqn:Hc.
    - pose proof (connect_connected_establishes_nothing orm st c Hc) as H.
      rewrite E in H. cbn [snd] in H. lia.
    - pose proof (connect_disconnected_establishes_once orm st Hc) as H.
      rewrite E in H. cbn [snd] in H. lia. }
  destruct (probe_counts st1) as ([Hp|Hp] & Hpe & Hpc); lia.
Qed.

(** X11. A check on a disconnected guardian that is not served from the
    cache attempts exactly one connection: health polling is what brings
    a guardian without startup hook to connect. *)
Theorem healthCheck_attempts_connection (st : St W) :
  unhealthyWithoutConnection (guardian st) = true ->
  cachedResult (guardian st) (getTime orm (world st)) = None ->
  connection (guardian st) = None ->
  establishments (trace (snd (healthCheck orm st))) = S (establishments (trace st)).
Proof.
  intros Hu Hcache Hc.
  rewrite (healthCheck_uncached orm st Hu Hcache).
  destruct (probe_counts (snd (connect orm st))) as (_ & -> & _).
  now apply connect_disconnected_establishes_once.
Qed.

End HealthCheckFacts.

(** ** What the operations leave alone *)

Section FrameFacts.
Context {W : Type} (orm : Typeorm W).

Lemma healthCheck_guardian (st : St W) :
  let g1 := guardian (snd (connect orm st)) in
  let after := guardian (snd (healthCheck orm st)) in
  after = guardian st \/ after = g1 \/
  exists t r, after = set_lastHealthCheckResult (Some r) (set_lastHealthCheck (Some t) g1).
Proof.
  cbv zeta. rewrite healthCheck_unfold.
  destruct (unhealthyWithoutConnection (guardian st)); [|now left].
  destruct (cachedResult _ _); [now left|].
  destruct (connect_returns orm st) as (b & st1 & ->). cbn [snd].
  rewrite healthCheck_probe_run. cbn zeta.
  repeat case_inner; cbn [snd guardian]; eauto.
Qed.

Lemma getConnection_guardian (st : St W) :
  guardian (snd (getConnection orm st)) = guardian st \/
  guardian (snd (getConnection orm st)) = guardian (snd (connect orm st)).
Proof.
  destruct (connect_returns orm st) as (b & st1 & E).
  cbv [getConnection Async.bind Async.this Async.observe Async.ret Async.extern].
  destruct (live orm (guardian st) (world st)); cbn [negb]; rewrite ?E;
    repeat case_inner; cbn [snd guardian]; auto.
Qed.

Lemma onlyConnectionAndCache_of_connection g g' :
  onlyConnection g g' -> onlyConnectionAndCache g g'.
Proof.
  unfold onlyConnection, onlyConnectionAndCache. intros H.
  destruct g, g'. cbv [set_connection set_lastHealthCheck set_lastHealthCheckResult] in *.
  cbn in *. injection H as -> -> -> -> -> -> -> -> -> -> -> ->. reflexivity.
Qed.

Lemma onlyConnectionAndCache_write g g' t r :
  onlyConnection g g' ->
  onlyConnectionAndCache g (set_lastHealthCheckResult r (set_lastHealthCheck t g')).
Proof.
  unfold onlyConnection, onlyConnectionAndCache. intros H.
  destruct g, g'. cbv [set_connection set_lastHealthCheck set_lastHealthCheckResult] in *.
  cbn in *. injection H as -> -> -> -> -> -> -> -> -> -> -> ->. reflexivity.
Qed.

Lemma exec_frame (op : Op) (st : St W) :
  onlyConnectionAndCache (guardian st) (guardian (exec orm op st)).
Proof.
  destruct op; cbn [exec].
  - apply onlyConnectionAndCache_of_connection, connect_frame.
  - rewrite close_frame.
    apply onlyConnectionAndCache_of_connection, onlyConnection_refl.
  - pose proof (connect_frame orm st) as Hf.
    destruct (healthCheck_guardian st) as [-> | [-> | (t & r & ->)]].
    + apply onlyConnectionAndCache_of_connection, onlyConnection_refl.
    + now apply onlyConnectionAndCache_of_connection.
    + now apply onlyConnectionAndCache_write.
  - apply onlyConnectionAndCache_of_connection, getConnection_frame.
Qed.

(** X12. No operation of the guardian changes its settings: the bound
    host, the stored config, the two policy flags, the two intervals, the
    health query, the connection options and the connection name are after
    connect, close, healthCheck and getConnection what they were
    before. *)
Theorem operations_preserve_settings (op : Op) (st : St W) :
  let g := guardian st in
  let g' := guardian (exec orm op st) in
  app g' = app g /\
  config g' = config g /\
  connectionRequired g' = connectionRequired g /\
  unhealthyWithoutConnection g' = unhealthyWithoutConnection g /\
  connectionAttemptInterval g' = connectionAttemptInterval g /\
  healthCheckQuery g' = healthCheckQuery g /\
  healthCheckInterval g' = healthCheckInterval g /\
  _connectionOptions g' = _connectionOptions g /\
  _connectionName g' = _connectionName g.
Proof.
  cbv zeta. pose proof (exec_frame op st) as H.
  unfold onlyConnectionAndCache in H. rewrite H.
  destruct (guardian st). cbn. repeat split.
Qed.

Lemma exec_attempt (op : Op) (st : St W) :
  _lastConnectionAttempt (guardian (exec orm op st))
  = _lastConnectionAttempt (guardian st).
Proof.
  pose proof (exec_frame op st) as H.
  unfold onlyConnectionAndCache in H. rewrite H.
  destruct (guardian st). reflexivity.
Qed.

Lemma constructor_attempt a opts :
  _lastConnectionAttempt (constructor a opts) = None.
Proof.
  unfold constructor, bindTo.
  destruct opts as [[name co req unh att q hci cf]|], a; cbn;
    repeat case_inner; reflexivity.
Qed.

Lemma setConnectionOptions_attempt o g :
  _lastConnectionAttempt (snd (setConnectionOptions o g)) = _lastConnectionAttempt g.
Proof.
  unfold setConnectionOptions. destruct g. cbn. repeat case_inner; reflexivity.
Qed.

(** X14. The last-connection-attempt timestamp is never written: in
    every reachable state it is still unset, so no operation can be
    throttled by connectionAttemptInterval. *)
Theorem attempt_timestamp_never_written (st : St W) :
  reachable orm st -> _lastConnectionAttempt (guardian st) = None.
Proof.
  induction 1 as [a opts w | op st _ IH | st w' _ IH | st g' _ IH Hp | st o _ IH];
    cbn [guardian].
  - apply constructor_attempt.
  - now rewrite exec_attempt.
  - exact IH.
  - destruct Hp as (H & _). now rewrite H.
  - now rewrite setConnectionOptions_attempt.
Qed.

End FrameFacts.

(** ** The accessors *)

Section AccessorFacts.
Context {W : Type} (orm : Typeorm W).

(** The registry lookup at the end of [getConnection]. *)
Lemma getConnection_unfold (st : St W) :
  getConnection orm st
  = let st1 := if live orm (guardian st) (world st) then st
               else snd (connect orm st) in
    let name := registryName (guardian st1) in
    let fallback :=
      (lookupConnection orm name (world st1),
       mkSt (guardian st1) (world st1) (trace st1 ++ [CallLookupConnection name])) in
    match connection (guardian st1) with
    | Some c => if isConnected orm (world st1) c then (Return c, st1) else fallback
    | None => fallback
    end.
Proof.
  destruct (connect_returns orm st) as (b & st1 & E).
  cbv [getConnection Async.bind Async.this Async.observe Async.ret Async.extern
       registryName].
  destruct (live orm (guardian st) (world st)); cbn [negb]; rewrite ?E;
    cbn [snd]; repeat case_inner; reflexivity.
Qed.

Lemma onlyConnection_name g g' :
  onlyConnection g g' -> _connectionName g' = _connectionName g.
Proof. intros ->. now destruct g. Qed.

(** X15. [getConnection()] hands out the guardian's own handle whenever
    that handle is live: at once and without any call to typeorm if it is
    live already, after one [connect()] if that makes it live. *)
Theorem getConnection_serves_live_handle (st : St W) (c : Connection) :
  (connection (guardian st) = Some c ->
   isConnected orm (world st) c = true ->
   getConnection orm st = (Return c, st)) /\
  (live orm (guardian st) (world st) = false ->
   let st1 := snd (connect orm st) in
   connection (guardian st1) = Some c ->
   isConnected orm (world st1) c = true ->
   getConnection orm st = (Return c, st1)).
Proof.
  split.
  - intros Hc Hup. rewrite getConnection_unfold.
    unfold live. rewrite Hc, Hup. cbv zeta. now rewrite Hc, Hup.
  - intros Hl st1 Hc Hup. subst st1. rewrite getConnection_unfold, Hl.
    cbv zeta. now rewrite Hc, Hup.
Qed.

(** X16. When no live connection exists even after the connect attempt,
    [getConnection()] answers with typeorm's registry lookup, by the
    guardian's connection name if that is a non-empty string and for the
    default connection otherwise; what the lookup throws reaches the
    caller. *)
Theorem getConnection_falls_back_to_registry (st : St W) :
  let st1 := snd (connect orm st) in
  let name := registryName (guardian st) in
  live orm (guardian st) (world st) = false ->
  live orm (guardian st1) (world st1) = false ->
  getConnection orm st
  = (lookupConnection orm name (world st1),
     mkSt (guardian st1) (world st1) (trace st1 ++ [CallLookupConnection name])) /\
  (forall n, _connectionName (guardian st) = Some n -> n <> EmptyString ->
             name = Some n) /\
  (Js.is_set Js.truthy_str (_connectionName (guardian st)) = false -> name = None).
Proof.
  intros st1 name Hl Hl1. subst st1 name.
  split; [|split].
  - rewrite getConnection_unfold, Hl. cbv zeta.
    unfold registryName.
    rewrite (onlyConnection_name _ _ (connect_frame orm st)).
    unfold live in Hl1.
    destruct (connection (guardian (snd (connect orm st)))); [now rewrite Hl1|].
    reflexivity.
  - intros n Hn Hne. unfold registryName, Js.is_set. rewrite Hn.
    destruct n; [contradiction | reflexivity].
  - intros Hn. unfold registryName. now rewrite Hn.
Qed.

(** X17. The private [getConnectionOptions()] reads typeorm's options at
    most once: options the guardian already has are returned without a
    call; options read from typeorm are stored, so that the next call
    returns them without a call; a failed read throws and stores
    nothing. *)
Theorem getConnectionOptions_caches (st : St W) :
  (forall o, _connectionOptions (guardian st) = Some o ->
             getConnectionOptions orm st = (Return o, st)) /\
  (forall o w',
     _connectionOptions (guardian st) = None ->
     readConnectionOptions orm (_connectionName (guardian st)) (world st)
     = (Return o, w') ->
     exists st',
       getConnectionOptions orm st = (Return o, st') /\
       _connectionOptions (guardian st') = Some o /\
       getConnectionOptions orm st' = (Return o, st')) /\
  (forall message w',
     _connectionOptions (guardian st) = None ->
     readConnectionOptions orm (_connectionName (guardian st)) (world st)
     = (Throw message, w') ->
     fst (getConnectionOptions orm st) = Throw message /\
     guardian (snd (getConnectionOptions orm st)) = guardian st).
Proof.
  assert (Hhit : forall (s : St W) o, _connectionOptions (guardian s) = Some o ->
                                     getConnectionOptions orm s = (Return o, s)).
  { intros s o Ho.
    cbv [getConnectionOptions Async.bind Async.this Async.ret]. now rewrite Ho. }
  split; [apply Hhit|]. split.
  - intros o w' Ho Hread.
    eexists. split; [|split].
    + cbv [getConnectionOptions Async.bind Async.this Async.ret Async.extern
           Async.assign].
      rewrite Ho, Hread. cbn [guardian world trace]. reflexivity.
    + unfold setConnectionOptions. cbn [snd guardian].
      destruct (guardian st). cbn. repeat case_inner; reflexivity.
    + apply Hhit. unfold setConnectionOptions. cbn [snd guardian].
      destruct (guardian st). cbn. repeat case_inner; reflexivity.
  - intros message w' Ho Hread.
    cbv [getConnectionOptions Async.bind Async.this Async.ret Async.extern
         Async.assign].
    rewrite Ho, Hread. cbn. now split.
Qed.

Lemma connect_disconnected_calls (st : St W) :
  connection (guardian st) = None ->
  In (CallCreateConnection (establishmentArg (guardian st)))
     (trace (snd (connect orm st))).
Proof.
  intros Hc. rewrite (connect_disconnected_run orm st Hc). cbv zeta.
  generalize (trace (logged (LogInfo "ORM:" "Attempting Connection") st)).
  intros t0. by_cases_on_run;
    rewrite <- ?app_assoc; cbn [List.app];
    apply in_or_app; right; now left.
Qed.

(** X18. [setConnectionOptions(options)] returns its argument and stores
    it; it adopts the options' name as connection name only if that name is
    a non-empty string; and the options it stored are what the next
    [connect()] of a disconnected guardian passes to [createConnection],
    whatever connection name the guardian has. *)
Theorem setConnectionOptions_drives_connect
    (options : ConnectionOptions) (g : MicroserviceORM) (w : W) (t : list Event) :
  let g' := snd (setConnectionOptions options g) in
  fst (setConnectionOptions options g) = options /\
  _connectionOptions g' = Some options /\
  (forall n, co_name options = Some n -> n <> EmptyString ->
             _connectionName g' = Some n) /\
  (Js.is_set Js.truthy_str (co_name options) = false ->
   _connectionName g' = _connectionName g) /\
  snd (setConnectionOptions options g') = g' /\
  (connection g = None ->
   In (CallCreateConnection (ByOptions options))
      (trace (snd (connect orm (mkSt g' w t))))).
Proof.
  cbv zeta.
  assert (Ho : _connectionOptions (snd (setConnectionOptions options g)) = Some options).
  { unfold setConnectionOptions. destruct g. cbn. repeat case_inner; reflexivity. }
  split; [reflexivity|]. split; [exact Ho|]. split; [|split; [|split]].
  - intros n Hn Hne. unfold setConnectionOptions. rewrite Hn.
    destruct n; [contradiction|]. destruct g. reflexivity.
  - intros Hn. unfold setConnectionOptions, Js.is_set in *.
    destruct (co_name options) as [n|]; [rewrite Hn|]; now destruct g.
  - unfold setConnectionOptions. destruct g. cbn.
    repeat case_inner; reflexivity.
  - intros Hc.
    assert (Hc' : connection (snd (setConnectionOptions options g)) = None).
    { unfold setConnectionOptions. destruct g. cbn in *.
      repeat case_inner; exact Hc. }
    pose proof (connect_disconnected_calls
                  (mkSt (snd (setConnectionOptions options g)) w t) Hc') as H.
    cbn [guardian] in H. unfold establishmentArg in H at 1.
    now rewrite Ho in H.
Qed.

Lemma constructor_identity a opts :
  connection (constructor a opts) = None /\
  _connectionOptions (constructor a opts) = Js.chain opts opt_connectionOptions /\
  _connectionName (constructor a opts) = Js.chain opts opt_connectionName.
Proof.
  unfold constructor, bindTo.
  destruct opts as [[name co req unh att q hci cf]|], a; cbn;
    repeat case_inner; repeat split; congruence.
Qed.

(** X19. What the constructor is given decides the first
    [createConnection] call: the connection options if supplied, else the
    connection name if it is a non-empty string, else no argument. *)
Theorem constructor_decides_establishment
    (a : option Microservice) (opts : option MicroserviceORMOptions) (w : W) :
  let after := snd (connect orm (mkSt (constructor a opts) w [])) in
  (forall o, Js.chain opts opt_connectionOptions = Some o ->
             In (CallCreateConnection (ByOptions o)) (trace after)) /\
  (forall n, Js.chain opts opt_connectionOptions = None ->
             Js.chain opts opt_connectionName = Some n -> n <> EmptyString ->
             In (CallCreateConnection (ByName n)) (trace after)) /\
  (Js.chain opts opt_connectionOptions = None ->
   Js.is_set Js.truthy_str (Js.chain opts opt_connectionName) = false ->
   In (CallCreateConnection ByDefault) (trace after)) /\
  establishments (trace after) = 1%nat.
Proof.
  cbv zeta.
  destruct (constructor_identity a opts) as (Hc & Ho & Hn).
  pose proof (connect_disconnected_calls (mkSt (constructor a opts) w []) Hc) as H.
  cbn [guardian] in H.
  destruct (establishmentArg_priority (constructor a opts)) as (P1 & P2 & P3).
  rewrite Ho in P1, P2, P3. rewrite Hn in P2, P3.
  split; [|split; [|split]].
  - intros o E. now rewrite <- (P1 o E).
  - intros n E1 E2 Hne. now rewrite <- (P2 n E1 E2 Hne).
  - intros E1 E2. now rewrite <- (P3 E1 E2).
  - now rewrite (connect_disconnected_establishes_once orm
                   (mkSt (constructor a opts) w []) Hc).
Qed.

End AccessorFacts.

(** ** More on the options resolver *)

Section ResolverEdgeFacts.
Import Resolver.

(** X20. An empty array of slaves in the per-call config switches
    replication off even when the stored config has replicas, whereas a
    per-call config without slaves, or with the empty string for slaves,
    leaves the stored replicas in force. *)
Theorem empty_slaves_array_disables_replication
    (this : MicroserviceORM) (cfg : MicroserviceORMConfig) :
  (cfg_slaves cfg = Some (SlaveArray []) ->
   buildConnectionOptions this (Some cfg)
   = SingleServer (resolveMaster (config this) (Some cfg))
       (resolveOutput (config this) (Some cfg))
       (resolveDetails (config this) (Some cfg))) /\
  (forall stored replicas,
     cfg_slaves cfg = None \/ cfg_slaves cfg = Some (SlaveString EmptyString) ->
     config this = Some stored ->
     cfg_slaves stored = Some (SlaveArray replicas) ->
     map ep_host (optionsSlaves (buildConnectionOptions this (Some cfg))) = replicas).
Proof.
  split.
  - intros H. unfold buildConnectionOptions. apply build_single.
    unfold resolveSlaves, mergeSlaves. cbn. now rewrite H.
  - intros stored replicas H Hs Hr. unfold buildConnectionOptions.
    rewrite build_hosts, Hs. unfold resolveSlaves, mergeSlaves. cbn.
    rewrite Hr. destruct H as [-> | ->]; reflexivity.
Qed.

End ResolverEdgeFacts.

Section CacheWindowFacts.
Context {W : Type} (orm : Typeorm W).

(** X21. A cached true no older than healthCheckInterval, the boundary
    included, is served as it is: the call returns true, reaches neither
    typeorm nor the log, and changes nothing, even if the connection has
    been lost in the meantime. *)
Theorem healthCheck_cache_hit_is_free (st : St W) (last : Z) :
  unhealthyWithoutConnection (guardian st) = true ->
  _lastHealthCheck (guardian st) = Some last ->
  _lastHealthCheckResult (guardian st) = Some true ->
  (getTime orm (world st) - healthCheckInterval (guardian st) <= last)%Z ->
  healthCheck orm st = (Return true, st) /\
  cachedResult (guardian st) (last + healthCheckInterval (guardian st)) = Some true.
Proof.
  intros Hu Hl Hr Hle. split.
  - now apply (healthCheck_serves_cached_true orm st last).
  - apply cachedResult_some. repeat split; [exact Hr|].
    exists last. split; [exact Hl | lia].
Qed.

(** X22. Once the cached entry is older than healthCheckInterval the
    check runs again: with a live connection after the connect attempt the
    call issues exactly one query and replaces both cache fields by the
    new result and the clock at return. *)
Theorem healthCheck_after_interval_checks_again (st : St W) (last : Z) :
  unhealthyWithoutConnection (guardian st) = true ->
  _lastHealthCheck (guardian st) = Some last ->
  (last < getTime orm (world st) - healthCheckInterval (guardian st))%Z ->
  let st1 := snd (connect orm st) in
  live orm (guardian st1) (world st1) = true ->
  let after := snd (healthCheck orm st) in
  queries (trace after) = S (queries (trace st)) /\
  exists r,
    fst (healthCheck orm st) = Return r /\
    cacheEntry (guardian after) = (Some (getTime orm (world after)), Some r).
Proof.
  intros Hu Hl Hlt st1 Hlive after. subst st1 after.
  rewrite (healthCheck_expired orm st last Hu Hl Hlt).
  unfold live in Hlive.
  destruct (connection (guardian (snd (connect orm st)))) as [c|] eqn:Hc;
    [|discriminate].
  destruct (healthCheck_probe_live orm _ c Hc Hlive) as (r & st' & -> & Hcache & Ht).
  cbn [fst snd]. split.
  - destruct (connect_no_query_no_close orm st) as (Hq & _).
    rewrite Ht. unfold queries in *. rewrite filter_app, length_app.
    cbn [filter isQuery length]. lia.
  - exists r. now split.
Qed.

End CacheWindowFacts.

(** ** The properties above on concrete runs *)

Lemma connect_establishment_priority_witness :
  connection (guardian (Sim.fresh Sim.down)) = None /\
  exists arg rest,
    trace (snd (connect Sim.typeorm (Sim.fresh Sim.down)))
    = CallCreateConnection arg :: rest /\
    arg = ByDefault /\ establishments rest = 0%nat.
Proof.
  split; [reflexivity|].
  destruct (connect_establishment_priority Sim.typeorm (Sim.fresh Sim.down) eq_refl)
    as (arg & rest & Ht & Hn & _ & _ & Hd).
  exists arg, rest. split; [exact Ht|]. split; [|exact Hn].
  apply Hd; reflexivity.
Defined.

Lemma connect_reactivates_held_handle_witness :
  (connection (guardian Faulty.closedHandle) = Some 0%nat /\
   isConnected Sim.typeorm (world Faulty.closedHandle) 0%nat = false) /\
  connection (guardian (snd (connect Sim.typeorm Faulty.closedHandle))) = Some 0%nat /\
  establishments (trace (snd (connect Sim.typeorm Faulty.closedHandle))) = 0%nat.
Proof.
  split; [split; reflexivity|].
  destruct (connect_reactivates_held_handle Sim.typeorm Faulty.closedHandle 0%nat
              eq_refl eq_refl) as (H1 & H2 & _).
  split; [exact H1 | exact H2].
Defined.

Lemma connect_optional_reports_success_witness :
  let st := mkSt (constructor None (Some Sim.zeroedOptions)) Sim.down [] in
  connectionRequired (guardian st) = false /\
  fst (connect Sim.typeorm st) = Return true.
Proof.
  cbv zeta. split; [reflexivity|].
  apply (connect_optional_reports_success Sim.typeorm). reflexivity.
Defined.

Lemma connect_required_success_means_live_witness :
  let st := Sim.fresh (Sim.upOneRow []) in
  let st' := snd (connect Sim.typeorm st) in
  (connectionRequired (guardian st) = true /\
   connect Sim.typeorm st = (Return true, st')) /\
  live Sim.typeorm (guardian st') (world st') = true.
Proof.
  cbv zeta. split; [split; reflexivity|].
  apply (connect_required_success_means_live Sim.typeorm (Sim.fresh (Sim.upOneRow [])));
    reflexivity.
Defined.

Lemma close_twice_witness :
  let st := snd (connect Sim.typeorm (Sim.fresh (Sim.upOneRow []))) in
  let st1 := snd (close Sim.typeorm st) in
  close Sim.typeorm st = (Return true, st1) /\
  close Sim.typeorm st1 = (Return true, st1).
Proof.
  cbv zeta. split; [reflexivity|].
  apply (close_twice Sim.typeorm
           (snd (connect Sim.typeorm (Sim.fresh (Sim.upOneRow []))))).
  reflexivity.
Defined.

Lemma close_propagates_error_witness :
  let st := snd (connect Faulty.stuckClose (Sim.fresh (Sim.upOneRow []))) in
  (connection (guardian st) = Some 0%nat /\
   isConnected Faulty.stuckClose (world st) 0%nat = true /\
   connectionClose Faulty.stuckClose 0%nat (world st)
   = (Throw "Quit inactivity timeout", world st)) /\
  fst (close Faulty.stuckClose st) = Throw "Quit inactivity timeout" /\
  guardian (snd (close Faulty.stuckClose st)) = guardian st.
Proof.
  cbv zeta. split; [repeat split|].
  destruct (close_propagates_error Faulty.stuckClose
              (snd (connect Faulty.stuckClose (Sim.fresh (Sim.upOneRow []))))
              0%nat "Quit inactivity timeout" _ eq_refl eq_refl eq_refl)
    as (H1 & H2 & _).
  split; [exact H1 | exact H2].
Defined.

Lemma close_then_connect_reuses_handle_witness :
  let st := snd (connect Sim.typeorm (Sim.fresh (Sim.upOneRow []))) in
  let st1 := snd (close Sim.typeorm st) in
  (connection (guardian st) = Some 0%nat /\
   close Sim.typeorm st = (Return true, st1)) /\
  connection (guardian (snd (connect Sim.typeorm st1))) = Some 0%nat /\
  establishments (trace (snd (connect Sim.typeorm st1))) = 1%nat.
Proof.
  cbv zeta. split; [split; reflexivity|].
  destruct (close_then_connect_reuses_handle Sim.typeorm
              (snd (connect Sim.typeorm (Sim.fresh (Sim.upOneRow [])))) _ 0%nat
              eq_refl eq_refl) as (H1 & H2 & _).
  split; [exact H1 | exact H2].
Defined.

Lemma healthCheck_never_throws_witness :
  let st := Sim.later Sim.downAfterConnect
              (snd (connect Sim.typeorm (Sim.fresh Sim.upEmpty))) in
  (unhealthyWithoutConnection (guardian st) = true /\
   cachedResult (guardian st) (getTime Sim.typeorm (world st)) = None /\
   connection (guardian (snd (connect Sim.typeorm st))) = Some 0%nat /\
   isConnected Sim.typeorm (world (snd (connect Sim.typeorm st))) 0%nat = true) /\
  exists st',
    healthCheck Sim.typeorm st = (Return false, st') /\
    cacheEntry (guardian st') = (Some 1000, Some false).
Proof.
  cbv zeta. split; [repeat split|].
  destruct (proj2 (healthCheck_never_throws Sim.typeorm
                     (Sim.later Sim.downAfterConnect
                        (snd (connect Sim.typeorm (Sim.fresh Sim.upEmpty)))))
              0%nat _ _ eq_refl eq_refl eq_refl eq_refl eq_refl)
    as (st' & Hrun & _ & Hcache).
  exists st'. split; [exact Hrun | exact Hcache].
Defined.

Lemma healthCheck_verdict_witness :
  let st := mkSt (constructor None (Some Faulty.optionalConnection)) Sim.down [] in
  (unhealthyWithoutConnection (guardian st) = true /\
   cachedResult (guardian st) (getTime Sim.typeorm (world st)) = None /\
   fst (connect Sim.typeorm st) = Return true /\
   live Sim.typeorm (guardian (snd (connect Sim.typeorm st)))
     (world (snd (connect Sim.typeorm st))) = false) /\
  fst (healthCheck Sim.typeorm st) = Return false.
Proof.
  cbv zeta. split; [repeat split|].
  rewrite (proj1 (healthCheck_verdict Sim.typeorm
                    (mkSt (constructor None (Some Faulty.optionalConnection)) Sim.down [])
                    eq_refl eq_refl) eq_refl).
  reflexivity.
Defined.

Lemma healthCheck_attempts_connection_witness :
  (unhealthyWithoutConnection (guardian (Sim.fresh Sim.upEmpty)) = true /\
   connection (guardian (Sim.fresh Sim.upEmpty)) = None) /\
  establishments (trace (snd (healthCheck Sim.typeorm (Sim.fresh Sim.upEmpty)))) = 1%nat.
Proof.
  split; [split; reflexivity|].
  apply (healthCheck_attempts_connection Sim.typeorm (Sim.fresh Sim.upEmpty));
    reflexivity.
Defined.

Lemma attempt_timestamp_never_written_witness :
  let st := exec Sim.typeorm OpClose
              (exec Sim.typeorm OpHealthCheck (Sim.fresh Sim.upEmpty)) in
  reachable Sim.typeorm st /\ _lastConnectionAttempt (guardian st) = None.
Proof.
  cbv zeta.
  assert (Hr : reachable Sim.typeorm
                 (exec Sim.typeorm OpClose
                    (exec Sim.typeorm OpHealthCheck (Sim.fresh Sim.upEmpty)))).
  { apply reach_op, reach_op, reach_new. }
  split; [exact Hr|].
  exact (attempt_timestamp_never_written Sim.typeorm _ Hr).
Defined.

Lemma getConnection_serves_live_handle_witness :
  let st := Sim.fresh (Sim.upOneRow []) in
  (live Sim.typeorm (guardian st) (world st) = false /\
   connection (guardian (snd (connect Sim.typeorm st))) = Some 0%nat /\
   isConnected Sim.typeorm (world (snd (connect Sim.typeorm st))) 0%nat = true) /\
  getConnection Sim.typeorm st = (Return 0%nat, snd (connect Sim.typeorm st)).
Proof.
  cbv zeta. split; [repeat split|].
  apply (proj2 (getConnection_serves_live_handle Sim.typeorm
                  (Sim.fresh (Sim.upOneRow [])) 0%nat)); reflexivity.
Defined.

Lemma getConnection_falls_back_to_registry_witness :
  let st := Sim.fresh Sim.down in
  (live Sim.typeorm (guardian st) (world st) = false /\
   live Sim.typeorm (guardian (snd (connect Sim.typeorm st)))
     (world (snd (connect Sim.typeorm st))) = false) /\
  fst (getConnection Sim.typeorm st) = Throw "ConnectionNotFoundError".
Proof.
  cbv zeta. split; [split; reflexivity|].
  pose proof (getConnection_falls_back_to_registry Sim.typeorm (Sim.fresh Sim.down)) as H.
  cbv zeta in H. destruct (H eq_refl eq_refl) as (Hrun & _).
  rewrite Hrun. reflexivity.
Defined.

Lemma getConnectionOptions_caches_witness :
  let st := Sim.fresh Sim.down in
  (_connectionOptions (guardian st) = None /\
   readConnectionOptions Faulty.withOptionsFile (_connectionName (guardian st)) (world st)
   = (Return Faulty.replicaOptions, world st)) /\
  exists st',
    getConnectionOptions Faulty.withOptionsFile st = (Return Faulty.replicaOptions, st') /\
    getConnectionOptions Faulty.withOptionsFile st' = (Return Faulty.replicaOptions, st').
Proof.
  cbv zeta. split; [split; reflexivity|].
  destruct (proj1 (proj2 (getConnectionOptions_caches Faulty.withOptionsFile
                            (Sim.fresh Sim.down)))
              Faulty.replicaOptions _ eq_refl eq_refl) as (st' & H1 & _ & H2).
  exists st'. split; [exact H1 | exact H2].
Defined.

Lemma setConnectionOptions_drives_connect_witness :
  let g := constructor None (Some Faulty.namedOptions) in
  let g' := snd (setConnectionOptions Faulty.replicaOptions g) in
  (co_name Faulty.replicaOptions = Some "replica" /\ connection g = None) /\
  _connectionName g' = Some "replica" /\
  In (CallCreateConnection (ByOptions Faulty.replicaOptions))
     (trace (snd (connect Sim.typeorm (mkSt g' Sim.down [])))).
Proof.
  cbv zeta. split; [split; reflexivity|].
  pose proof (setConnectionOptions_drives_connect Sim.typeorm Faulty.replicaOptions
                (constructor None (Some Faulty.namedOptions)) Sim.down []) as H.
  cbv zeta in H. destruct H as (_ & _ & Hname & _ & _ & Hcall).
  split.
  - apply Hname; [reflexivity | discriminate].
  - apply Hcall. reflexivity.
Defined.

Lemma constructor_decides_establishment_witness :
  (opt_connectionOptions Faulty.namedOptions = None /\
   opt_connectionName Faulty.namedOptions = Some "reporting") /\
  In (CallCreateConnection (ByName "reporting"))
     (trace (snd (connect Sim.typeorm
                    (mkSt (constructor None (Some Faulty.namedOptions)) Sim.down [])))).
Proof.
  split; [split; reflexivity|].
  pose proof (constructor_decides_establishment Sim.typeorm None
                (Some Faulty.namedOptions) Sim.down) as H.
  cbv zeta in H. destruct H as (_ & Hname & _).
  apply Hname; [reflexivity | reflexivity | discriminate].
Defined.

Lemma empty_slaves_array_disables_replication_witness :
  let this := set_config (Some Faulty.replicatedConfig) fieldDefaults in
  (cfg_slaves Faulty.noReplicaConfig = Some (SlaveArray []) /\
   cfg_slaves Faulty.replicatedConfig = Some (SlaveArray ["db2"; "db3"])) /\
  Resolver.optionsSlaves (buildConnectionOptions this (Some Faulty.noReplicaConfig)) = [] /\
  map ep_host (Resolver.optionsSlaves (buildConnectionOptions this (Some Sim.blankConfig)))
  = ["db2"; "db3"].
Proof.
  cbv zeta. split; [split; reflexivity|].
  destruct (empty_slaves_array_disables_replication
              (set_config (Some Faulty.replicatedConfig) fieldDefaults)
              Faulty.noReplicaConfig) as (Hoff & _).
  destruct (empty_slaves_array_disables_replication
              (set_config (Some Faulty.replicatedConfig) fieldDefaults)
              Sim.blankConfig) as (_ & Hon).
  split.
  - rewrite (Hoff eq_refl). reflexivity.
  - apply (Hon Faulty.replicatedConfig); [left|..]; reflexivity.
Defined.

Lemma healthCheck_cache_hit_is_free_witness :
  let st := Faulty.cachedHealthy 16000 in
  (unhealthyWithoutConnection (guardian st) = true /\
   (getTime Sim.typeorm (world st) - healthCheckInterval (guardian st) <= 1000)%Z) /\
  healthCheck Sim.typeorm st = (Return true, st).
Proof.
  cbv zeta. split; [split; [reflexivity | cbn; lia]|].
  apply (healthCheck_cache_hit_is_free Sim.typeorm (Faulty.cachedHealthy 16000) 1000);
    first [reflexivity | cbn; lia].
Defined.

Lemma healthCheck_after_interval_checks_again_witness :
  let st := Sim.later (Sim.mkWorld true [true] 16001 1)
              (snd (healthCheck Sim.typeorm (Sim.fresh (Sim.upOneRow [])))) in
  (_lastHealthCheck (guardian st) = Some 1000 /\
   (1000 < getTime Sim.typeorm (world st) - healthCheckInterval (guardian st))%Z) /\
  queries (trace (snd (healthCheck Sim.typeorm st))) = 2%nat.
Proof.
  cbv zeta. split; [split; [reflexivity | cbn; lia]|].
  pose proof (healthCheck_after_interval_checks_again Sim.typeorm
                (Sim.later (Sim.mkWorld true [true] 16001 1)
                   (snd (healthCheck Sim.typeorm (Sim.fresh (Sim.upOneRow [])))))
                1000 eq_refl eq_refl) as H.
  cbv zeta in H.
  exact (proj1 (H ltac:(cbn; lia) eq_refl)).
Defined.
